(** * CodeCity: the scanner pipeline of [scanner2.py]

    A shallow embedding of the repository-to-city pipeline: URL parsing,
    file enumeration, per-file analysis, the completion-order scheduler,
    the treemap layout step, the colour encoder and the tile assembler,
    followed by the properties the specification states about them.

    Conventions of the embedding.
    - Python [int] is [Z]; Python [float] is idealised as exact rational
      arithmetic ([Q], compared with [==]); rounding is not modelled.
    - File names, paths and URLs are [string]s; decoded file content is a
      list of Unicode code points ([list N]), since [str.splitlines]
      recognises line boundaries outside ASCII.
    - A raised exception is a value of [exn]; code that may raise returns
      [result].  Printing to stdout is not part of the state, except the
      enumerator's limit warning, which is returned as a flag.
    - What the process gets from outside (the clone, the directory walk,
      file contents, lizard's function list, the completion order of the
      worker pool) is collected in the record [Env].
    - The [try]/[finally] of the entry point is modelled a second time
      with the faults of the operating system (record [Host]) in
      [build_city_on_host], which the command line of the script
      ([main]) runs.  The handlers of [app.py] that run the script and
      serve its results follow; what the web application is given from
      outside is the record [AppEnv], and the files it reads and writes
      are the state [AppState]. *)

From Stdlib Require Import ZArith QArith Qminmax Lqa Lia List Bool.
From Stdlib Require Import String Ascii Permutation.
Import ListNotations.

Local Open Scope string_scope.
Local Open Scope Z_scope.

(* ===================================================================== *)
(** ** Exceptions and results *)

(** The exception classes the pipeline can raise.  [Exception] is the
    generic class, raised with a message; [IndexError] comes from an
    out-of-range subscript, [CalledProcessError] from [subprocess.run]. *)
Inductive exn : Type :=
| Exception (msg : string)
| IndexError
| CalledProcessError.

(** The class of an exception, which is what an [except] clause or a
    caller can dispatch on. *)
Inductive exn_class : Type :=
| ClsException
| ClsIndexError
| ClsCalledProcessError.

Definition class_of (e : exn) : exn_class :=
  match e with
  | Exception _ => ClsException
  | IndexError => ClsIndexError
  | CalledProcessError => ClsCalledProcessError
  end.

Definition message_of (e : exn) : option string :=
  match e with
  | Exception msg => Some msg
  | _ => None
  end.

Inductive result (A : Type) : Type :=
| Ok (a : A)
| Raise (e : exn).
Arguments Ok {A} a.
Arguments Raise {A} e.

Definition bind {A B : Type} (r : result A) (k : A -> result B) : result B :=
  match r with
  | Ok a => k a
  | Raise e => Raise e
  end.

Notation "'let*' x ':=' r 'in' k" := (bind r (fun x => k))
  (at level 10, x pattern, r at level 100, k at level 200).

(* ===================================================================== *)
(** ** Python string operations *)

Module PyStr.

(** [s.startswith(p)] *)
Fixpoint startswith (s p : string) {struct p} : bool :=
  match p with
  | EmptyString => true
  | String b p' =>
      match s with
      | EmptyString => false
      | String a s' => Ascii.eqb a b && startswith s' p'
      end
  end.

(** [s[n:]] for [0 <= n] *)
Fixpoint drop (n : nat) (s : string) : string :=
  match n, s with
  | O, _ => s
  | S _, EmptyString => EmptyString
  | S k, String _ s' => drop k s'
  end.

(** [s[:n]] for [0 <= n] *)
Fixpoint take (n : nat) (s : string) : string :=
  match n, s with
  | O, _ => EmptyString
  | S _, EmptyString => EmptyString
  | S k, String a s' => String a (take k s')
  end.

(** [s.endswith(p)] *)
Definition endswith (s p : string) : bool :=
  (String.length p <=? String.length s)%nat
  && String.eqb (drop (String.length s - String.length p) s) p.

(** [p in s]: [p] occurs in [s] as a contiguous substring. *)
Fixpoint contains (s p : string) : bool :=
  startswith s p ||
  match s with
  | EmptyString => false
  | String _ s' => contains s' p
  end.

(** [s.rstrip(c)] for a one-character argument. *)
Fixpoint rstrip (c : ascii) (s : string) : string :=
  match s with
  | EmptyString => EmptyString
  | String a s' =>
      match rstrip c s' with
      | EmptyString => if Ascii.eqb a c then EmptyString else String a EmptyString
      | r => String a r
      end
  end.

(** [s.replace(old, '')] for a non-empty [old]: the occurrences of [old]
    are removed left to right, without overlap.  [skip] counts the
    characters of a matched occurrence still to be dropped. *)
Fixpoint remove_from (old : string) (skip : nat) (s : string) : string :=
  match s with
  | EmptyString => EmptyString
  | String a s' =>
      match skip with
      | S k => remove_from old k s'
      | O =>
          if startswith s old
          then remove_from old (String.length old - 1) s'
          else String a (remove_from old O s')
      end
  end.

Definition remove_all (old s : string) : string := remove_from old O s.

(** [s.split(c)] for a one-character separator. *)
Fixpoint split (c : ascii) (s : string) : list string :=
  match s with
  | EmptyString => [EmptyString]
  | String a s' =>
      if Ascii.eqb a c then EmptyString :: split c s'
      else
        match split c s' with
        | h :: t => String a h :: t
        | [] => [String a EmptyString]
        end
  end.

(** Whether the character [c] occurs in [s]. *)
Fixpoint has_char (c : ascii) (s : string) : bool :=
  match s with
  | EmptyString => false
  | String a s' => Ascii.eqb a c || has_char c s'
  end.

End PyStr.

(* ===================================================================== *)
(** ** [get_github_repo_info] *)

(** The normalisation that precedes the split: trailing slashes, the
    GitHub prefixes and a trailing [.git] are stripped. *)
Definition strip_repo_url (url : string) : string :=
  let url := PyStr.rstrip "/" url in
  let url :=
    if PyStr.startswith url "https://github.com/"
    then PyStr.remove_all "https://github.com/" url else url in
  let url :=
    if PyStr.startswith url "git@github.com:"
    then PyStr.remove_all "git@github.com:" url else url in
  let url :=
    if PyStr.endswith url ".git"
    then PyStr.take (String.length url - 4) url else url in
  url.

(** [parts[0], parts[1]]: the second subscript raises [IndexError] when
    the split has a single element ([split] never returns an empty list). *)
Definition get_github_repo_info (url : string) : result (string * string) :=
  let parts := PyStr.split "/" (strip_repo_url url) in
  match parts with
  | p0 :: p1 :: _ => Ok (p0, p1)
  | _ => Raise IndexError
  end.

(* ===================================================================== *)
(** ** The visual encoder (colour and height of a tile) *)

Definition color_of (complexity : Z) : string :=
  if complexity <=? 5 then "#00ffcc"
  else if complexity <=? 15 then "#00ff88"
  else if complexity <=? 30 then "#FFC300"
  else if complexity <=? 50 then "#ff9900"
  else "#ff4444".

Definition height_of (complexity : Z) : Z := Z.max 1 (complexity * 2).

(** The five colours in the order of the branches, lowest complexity
    first. *)
Definition color_buckets : list string :=
  ["#00ffcc"; "#00ff88"; "#FFC300"; "#ff9900"; "#ff4444"].

(** The bucket number as the specification words it: fixed ascending
    thresholds 5, 15, 30, 50, buckets numbered from 1. *)
Definition bucket_of (complexity : Z) : nat :=
  if complexity <=? 5 then 1%nat
  else if complexity <=? 15 then 2%nat
  else if complexity <=? 30 then 3%nat
  else if complexity <=? 50 then 4%nat
  else 5%nat.

(* ===================================================================== *)
(** ** The file enumerator: [get_source_files_from_local] *)

Definition SUPPORTED_EXTENSIONS : list string :=
  [".c"; ".cc"; ".cpp"; ".cxx"; ".c++"; ".h"; ".hh"; ".hpp"; ".hxx"; ".h++";
   ".java"; ".js"; ".m"; ".mm";
   ".py"; ".rb"; ".swift"; ".go"; ".php"; ".pl"; ".pm"; ".t";
   ".cs"; ".d"; ".erl"; ".ex"; ".exs"; ".f90"; ".f"; ".for"; ".f95";
   ".groovy"; ".hs"; ".kt"; ".kts"; ".lua"; ".nb"; ".pas"; ".pp";
   ".R"; ".rs"; ".scala"; ".sc"; ".sh"; ".bash"; ".sql"; ".ts"; ".tsx";
   ".vb"; ".vbs"; ".gd"].

Definition MAX_FILES : Z := 2000.
Definition MAX_WORKERS : Z := 20.

(** The dictionary built for each retained file. *)
Record SourceFile : Type := mkSourceFile {
  sf_name : string;
  sf_path : string;
  sf_local_path : string
}.

(** One item yielded by [os.walk]: a directory, its sub-directories and
    the files directly inside it. *)
Definition walk_entry : Type := (string * list string * list string)%type.

Definition entry_root (e : walk_entry) : string := fst (fst e).
Definition entry_files (e : walk_entry) : list string := snd e.

(** [os.path.join(root, file)] on a POSIX system. *)
Definition path_join (root file : string) : string :=
  if PyStr.startswith file "/" then file
  else if String.eqb root EmptyString || PyStr.endswith root "/"
  then root ++ file
  else root ++ "/" ++ file.

(** [any(file.endswith(ext) for ext in SUPPORTED_EXTENSIONS)] *)
Definition is_supported (file : string) : bool :=
  existsb (PyStr.endswith file) SUPPORTED_EXTENSIONS.

(** [if '.git' in root: continue] *)
Definition in_git_dir (root : string) : bool := PyStr.contains root ".git".

(** How an iteration of a loop whose body can [return] ends. *)
Inductive loop (A : Type) : Type :=
| Continue (acc : A)
| Return (acc : A).
Arguments Continue {A} acc.
Arguments Return {A} acc.

Section Enumerator.

(** [os.path.relpath], which depends on the working directory, is a
    parameter of the model. *)
Variable relpath : string -> string -> string.
Variable local_repo_path : string.
Variable max_files : Z.

(** The record appended for a supported file. *)
Definition make_source_file (root file : string) : SourceFile :=
  let full_path := path_join root file in
  {| sf_name := file;
     sf_path := relpath full_path local_repo_path;
     sf_local_path := full_path |}.

(** The inner loop over the files of one directory.  The limit is
    tested after every file, whether it was appended or not. *)
Fixpoint scan_files (root : string) (files : list string)
         (source_files : list SourceFile) : loop (list SourceFile) :=
  match files with
  | [] => Continue source_files
  | file :: rest =>
      let source_files :=
        if is_supported file
        then (source_files ++ [make_source_file root file])%list
        else source_files in
      if Z.of_nat (List.length source_files) >=? max_files
      then Return source_files
      else scan_files root rest source_files
  end.

(** The outer loop over the walk.  The boolean tells whether the
    limit warning was printed. *)
Fixpoint scan_walk (walk : list walk_entry)
         (source_files : list SourceFile) : list SourceFile * bool :=
  match walk with
  | [] => (source_files, false)
  | e :: rest =>
      if in_git_dir (entry_root e) then scan_walk rest source_files
      else
        match scan_files (entry_root e) (entry_files e) source_files with
        | Return found => (found, true)
        | Continue source_files => scan_walk rest source_files
        end
  end.

(** The function takes the sequence that [os.walk(local_repo_path)]
    yields; it returns [source_files] and whether the warning was
    printed. *)
Definition get_source_files_from_local (walk : list walk_entry)
  : list SourceFile * bool :=
  scan_walk walk [].

End Enumerator.

(* ===================================================================== *)
(** ** The complexity analyzer: [analyze_file] *)

(** Decoded text: a sequence of Unicode code points. *)
Definition text : Type := list N.

(** The line boundaries of [str.splitlines]: LF, CR, VT, FF, FS, GS, RS,
    NEL, LINE SEPARATOR and PARAGRAPH SEPARATOR. *)
Definition is_line_boundary (c : N) : bool :=
  ((c =? 10) || (c =? 13) || (c =? 11) || (c =? 12) || (c =? 28)
   || (c =? 29) || (c =? 30) || (c =? 133) || (c =? 8232)
   || (c =? 8233))%N.

(** Whether the boundary [c], followed by [next], is the pair CR LF,
    which counts as one boundary. *)
Definition is_crlf (c next : N) : bool := ((c =? 13) && (next =? 10))%N.

(** [content.splitlines()]: the lines of the content without their
    boundaries; a final line is produced only when characters follow
    the last boundary. *)
Fixpoint splitlines (s : text) : list text :=
  match s with
  | [] => []
  | c :: s' =>
      if is_line_boundary c then
        [] :: match s' with
              | next :: s'' =>
                  if is_crlf c next then splitlines s'' else splitlines s'
              | [] => splitlines s'
              end
      else
        match splitlines s' with
        | [] => [[c]]
        | line :: lines => (c :: line) :: lines
        end
  end.

(** The number of line breaks of a content, CR LF counting once. *)
Fixpoint line_break_count (s : text) : nat :=
  match s with
  | [] => O
  | c :: s' =>
      if is_line_boundary c then
        S match s' with
          | next :: s'' =>
              if is_crlf c next then line_break_count s''
              else line_break_count s'
          | [] => line_break_count s'
          end
      else line_break_count s'
  end.

(** Whether the content ends with characters that no line boundary
    follows. *)
Fixpoint ends_unterminated (s : text) : bool :=
  match s with
  | [] => false
  | c :: s' =>
      match s' with
      | [] => negb (is_line_boundary c)
      | _ :: _ => ends_unterminated s'
      end
  end.

(** The line count as the specification words it: the count of line
    breaks, floored at 1. *)
Definition spec_line_count (s : text) : Z :=
  Z.max 1 (Z.of_nat (line_break_count s)).

(** The dictionary returned for an analysed file. *)
Record FileMetric : Type := mkFileMetric {
  fm_name : string;
  fm_size : Z;
  fm_complexity : Z;
  fm_churn : Z
}.

(** Python's [sum] over integers. *)
Definition sumZ (l : list Z) : Z := fold_left Z.add l 0.

(** [x or 1] on integers: [x] unless it is zero. *)
Definition or_one (x : Z) : Z := if x =? 0 then 1 else x.

(** What the process is given from outside. *)
Record Env : Type := mkEnv {
  (** the module-level token, [None] when the variable is unset *)
  GITHUB_TOKEN : option string;
  (** the directory [tempfile.mkdtemp] creates *)
  mkdtemp : string;
  (** whether [git clone] of a URL into a directory exits with status 0 *)
  git_clone : string -> string -> bool;
  (** the sequence [os.walk] yields for a directory *)
  os_walk : string -> list walk_entry;
  relpath : string -> string -> string;
  (** [open(path, 'r', encoding='utf-8', errors='ignore').read()];
      [None] when opening or reading raises *)
  read_text : string -> option text;
  (** the [cyclomatic_complexity] of every function in
      [lizard.analyze_file(path).function_list]; [None] when lizard raises *)
  lizard_function_list : string -> option (list Z);
  (** the order in which the submitted analyses complete *)
  as_completed : list SourceFile -> list SourceFile
}.

(** Every exception inside the body is caught and turned into [None]. *)
Definition analyze_file (env : Env) (file_info : SourceFile)
  : option FileMetric :=
  match read_text env (sf_local_path file_info) with
  | None => None
  | Some content =>
      match content with
      | [] => None
      | _ :: _ =>
          let lines := splitlines content in
          match lines with
          | [] => None
          | _ :: _ =>
              match lizard_function_list env (sf_local_path file_info) with
              | None => None
              | Some function_list =>
                  let complexity := or_one (sumZ function_list) in
                  Some {| fm_name := sf_name file_info;
                          fm_size := Z.max 1 (Z.of_nat (List.length lines));
                          fm_complexity := complexity;
                          fm_churn := 1 |}
              end
          end
      end
  end.

(* ===================================================================== *)
(** ** The scheduler: the fan-in loop over completed analyses *)

(** What [future.result()] does: it returns the task's value or re-raises
    the exception the task ended with. *)
Inductive outcome : Type :=
| Returned (value : option FileMetric)
| Raised (e : exn).

(** The loop over [as_completed]: a result that is not [None] is
    appended; [None] and a raised exception leave the list as it is. *)
Fixpoint collect_results (task : SourceFile -> outcome)
         (completed : list SourceFile) (files_to_render : list FileMetric)
  : list FileMetric :=
  match completed with
  | [] => files_to_render
  | file_info :: rest =>
      match task file_info with
      | Returned (Some result) =>
          collect_results task rest (files_to_render ++ [result])
      | Returned None => collect_results task rest files_to_render
      | Raised _ => collect_results task rest files_to_render
      end
  end.

(** The task submitted for every file: [analyze_file] catches every
    exception itself, so the future always returns. *)
Definition analysis_task (env : Env) (file_info : SourceFile) : outcome :=
  Returned (analyze_file env file_info).

(** The analyses of one run: [analyze_file] on every enumerated file,
    consumed in completion order. *)
Definition run_scheduler (env : Env) (files : list SourceFile)
  : list FileMetric :=
  collect_results (analysis_task env) (as_completed env files) [].

(* ===================================================================== *)
(** ** The treemap layout engine *)

Local Open Scope Q_scope.

(** A rectangle as the layout returns it: corner and extents. *)
Record Rect : Type := mkRect {
  r_x : Q;
  r_y : Q;
  r_dx : Q;
  r_dy : Q
}.

Definition area (r : Rect) : Q := r_dx r * r_dy r.

Definition Qsum (l : list Q) : Q := fold_left Qplus l 0.

(** The arithmetic of the package is floating point; here it is exact,
    and [/] is the total division of [Q].  For positive values in a free
    rectangle of positive sides every divisor below is positive (the sum
    of the sizes, a side, the thickness of a row, the extents of a laid
    rectangle), so no division by zero is hidden by the totality. *)
Module Squarify.

(** Modelled from the spec: the function [normalize_sizes] of the
    external [squarify] package, step 1 of the layout algorithm,
    [value_i = size_i * A^2 / sum of the sizes]. *)
Definition normalize_sizes (sizes : list Q) (dx dy : Q) : list Q :=
  let total_size := Qsum sizes in
  let total_area := dx * dy in
  map (fun size => size * total_area / total_size) sizes.

(** Modelled from the spec: a row laid along the vertical side of the
    free rectangle (step 4 when the vertical side is the shorter one).
    All its rectangles share the thickness [width]; the length of each
    along the side is its value divided by that thickness. *)
Fixpoint stack_down (sizes : list Q) (x y width : Q) : list Rect :=
  match sizes with
  | [] => []
  | size :: rest =>
      {| r_x := x; r_y := y; r_dx := width; r_dy := size / width |}
        :: stack_down rest x (y + size / width) width
  end.

(** Modelled from the spec: the same along the horizontal side. *)
Fixpoint stack_right (sizes : list Q) (x y height : Q) : list Rect :=
  match sizes with
  | [] => []
  | size :: rest =>
      {| r_x := x; r_y := y; r_dx := size / height; r_dy := height |}
        :: stack_right rest (x + size / height) y height
  end.

(** Modelled from the spec: the package's [layoutrow]; the shared
    thickness [width] makes the row's area equal the sum of its values. *)
Definition layoutrow (sizes : list Q) (x y dx dy : Q) : list Rect :=
  let covered_area := Qsum sizes in
  let width := covered_area / dy in
  stack_down sizes x y width.

(** Modelled from the spec: the package's [layoutcol], the row laid
    along the horizontal side, with the shared thickness [height]. *)
Definition layoutcol (sizes : list Q) (x y dx dy : Q) : list Rect :=
  let covered_area := Qsum sizes in
  let height := covered_area / dx in
  stack_right sizes x y height.

(** Modelled from the spec: the package's [layout]; rows go along the
    shorter side of the free rectangle, a square counting as wide. *)
Definition layout (sizes : list Q) (x y dx dy : Q) : list Rect :=
  if Qle_bool dy dx then layoutrow sizes x y dx dy
  else layoutcol sizes x y dx dy.

(** Modelled from the spec: the package's [leftover], step 5: the free
    rectangle shrinks by the thickness of the row just laid. *)
Definition leftover (sizes : list Q) (x y dx dy : Q) : Q * Q * Q * Q :=
  let covered_area := Qsum sizes in
  if Qle_bool dy dx then
    let width := covered_area / dy in
    (x + width, y, dx - width, dy)
  else
    let height := covered_area / dx in
    (x, y + height, dx, dy - height).

(** Modelled from the spec: the aspect ratio of one rectangle inside
    the package's [worst_ratio], the larger of the two quotients of its
    sides. *)
Definition aspect (r : Rect) : Q :=
  Qmax (r_dx r / r_dy r) (r_dy r / r_dx r).

(** Modelled from the spec: the package's [worst_ratio], the largest
    aspect ratio in the row the values would form (step 3). *)
Definition worst_ratio (sizes : list Q) (x y dx dy : Q) : Q :=
  match map aspect (layout sizes x y dx dy) with
  | [] => 0
  | a :: rest => fold_left Qmax rest a
  end.

(** Modelled from the spec: the row grows by one value as long as the
    worst ratio does not increase and values remain (step 3); [i] is the
    length of the row so far, [fuel] bounds the iterations. *)
Fixpoint row_length (sizes : list Q) (x y dx dy : Q) (i fuel : nat) : nat :=
  match fuel with
  | O => i
  | S fuel' =>
      if (i <? List.length sizes)%nat
         && Qle_bool (worst_ratio (firstn (S i) sizes) x y dx dy)
                     (worst_ratio (firstn i sizes) x y dx dy)
      then row_length sizes x y dx dy (S i) fuel'
      else i
  end.

(** Modelled from the spec: the package's [squarify], steps 2 to 5.  An
    empty list gives no rectangle, a single value takes the whole free
    rectangle, otherwise a row is split off, laid out, and the rest goes
    into the leftover rectangle.  [fuel] bounds the number of rows. *)
Fixpoint squarify_rows (fuel : nat) (sizes : list Q) (x y dx dy : Q)
  : list Rect :=
  match fuel with
  | O => []
  | S fuel' =>
      match sizes with
      | [] => []
      | [_] => layout sizes x y dx dy
      | _ :: _ :: _ =>
          let i := row_length sizes x y dx dy 1 (List.length sizes) in
          let current := firstn i sizes in
          let remaining := skipn i sizes in
          let '(leftover_x, leftover_y, leftover_dx, leftover_dy) :=
            leftover current x y dx dy in
          (layout current x y dx dy
             ++ squarify_rows fuel' remaining
                  leftover_x leftover_y leftover_dx leftover_dy)%list
      end
  end.

(** Modelled from the spec: the entry point of the package's
    [squarify].  Every row takes at least one value, so as many rows as
    values are enough. *)
Definition squarify (sizes : list Q) (x y dx dy : Q) : list Rect :=
  squarify_rows (List.length sizes) sizes x y dx dy.

End Squarify.

(** The layout step of [build_city_from_github]: the sizes of the
    analysed files, replaced by ones when they sum to zero, are rescaled
    to the square of side [dynamic_area] and laid out in it. *)
Definition layout_engine (sizes : list Q) (side : Q) : list Rect :=
  let values := Squarify.normalize_sizes sizes side side in
  Squarify.squarify values 0 0 side side.

Definition layout_step (sizes : list Z) (dynamic_area : Z) : list Rect :=
  let sizes :=
    if (sumZ sizes =? 0)%Z then repeat 1%Z (List.length sizes) else sizes in
  layout_engine (map inject_Z sizes) (inject_Z dynamic_area).

Local Close Scope Q_scope.

(* ===================================================================== *)
(** ** The city assembler *)

(** One entry of [city_data]. *)
Record Tile : Type := mkTile {
  t_name : string;
  t_x : Q;
  t_y : Q;
  t_w : Q;
  t_d : Q;
  t_h : Z;
  t_color : string;
  t_size : Z
}.

(** The body of the loop: colour, height and the dictionary appended. *)
Definition make_tile (file_data : FileMetric) (rect : Rect) : Tile :=
  let complexity := fm_complexity file_data in
  {| t_name := fm_name file_data;
     t_x := r_x rect; t_y := r_y rect;
     t_w := r_dx rect; t_d := r_dy rect;
     t_h := height_of complexity;
     t_color := color_of complexity;
     t_size := fm_size file_data |}.

(** The loop [for i, file_data in enumerate(files_to_render)]: the
    subscript [rects[i]] raises [IndexError] when [i] is out of range. *)
Fixpoint assemble_from (i : nat) (files_to_render : list FileMetric)
         (rects : list Rect) (city_data : list Tile) : result (list Tile) :=
  match files_to_render with
  | [] => Ok city_data
  | file_data :: rest =>
      match nth_error rects i with
      | None => Raise IndexError
      | Some rect =>
          assemble_from (S i) rest rects
                        (city_data ++ [make_tile file_data rect])
      end
  end.

Definition assemble (files_to_render : list FileMetric) (rects : list Rect)
  : result (list Tile) :=
  assemble_from 0 files_to_render rects [].

(* ===================================================================== *)
(** ** The pipeline: [clone_repository] and [build_city_from_github] *)

(** Truth value of the token: [None] and the empty string are false. *)
Definition token_set (token : option string) : option string :=
  match token with
  | Some (String a t) => Some (String a t)
  | _ => None
  end.

(** [clone_repository]: with a token the URL is rebuilt from the parsed
    owner and repository (the parser is called twice); a failing
    [git clone] re-raises [CalledProcessError]. *)
Definition clone_repository (env : Env) (repo_url : string)
           (token : option string) : result string :=
  let temp_dir := mkdtemp env in
  let* clone_url :=
    match token_set token with
    | Some tok =>
        let* info0 := get_github_repo_info repo_url in
        let* info1 := get_github_repo_info repo_url in
        Ok ("https://" ++ tok ++ "@github.com/"
              ++ fst info0 ++ "/" ++ snd info1 ++ ".git")
    | None => Ok repo_url
    end in
  if git_clone env clone_url temp_dir then Ok temp_dir
  else Raise CalledProcessError.

(** [max(150, int((num_files ** 0.5) * 45))]; in exact arithmetic the
    integer part of [45 * sqrt n] is the integer square root of
    [2025 * n]. *)
Definition dynamic_area_of (num_files : Z) : Z :=
  Z.max 150 (Z.sqrt (2025 * num_files)).

(** The part of the pipeline after the scheduler: layout, encoding and
    assembly. *)
Definition render_city (files_to_render : list FileMetric)
  : result (list Tile) :=
  let num_files := Z.of_nat (List.length files_to_render) in
  let dynamic_area := dynamic_area_of num_files in
  let sizes := map fm_size files_to_render in
  let rects := layout_step sizes dynamic_area in
  assemble files_to_render rects.

(** The exception raised when the enumeration found no file. *)
Definition input_error : exn :=
  Exception "No analyzable source files found in repository.".

(** The exception raised when no analysis produced a metric. *)
Definition aggregate_error : exn :=
  Exception "No analyzable files could be processed.".

(** The part of the pipeline that follows the enumeration. *)
Definition build_city_from_files (env : Env) (files : list SourceFile)
  : result (list Tile) :=
  match files with
  | [] => Raise input_error
  | _ :: _ =>
      let files_to_render := run_scheduler env files in
      match files_to_render with
      | [] => Raise aggregate_error
      | _ :: _ => render_city files_to_render
      end
  end.

(** The entry point.  The result is the tile list written to
    [city_data2.json]; the removal of the temporary directory in the
    [finally] clause is not part of the model. *)
Definition build_city_from_github (env : Env) (repo_url : string)
  : result (list Tile) :=
  let* info := get_github_repo_info repo_url in
  let* local_repo_path := clone_repository env repo_url (GITHUB_TOKEN env) in
  let files :=
    fst (get_source_files_from_local (relpath env) local_repo_path MAX_FILES
           (os_walk env local_repo_path)) in
  build_city_from_files env files.

(* ===================================================================== *)
(** ** Notions used to state the properties *)

(** The files one walk entry contributes when no limit applies. *)
Definition supported_in (relpath : string -> string -> string)
           (local_repo_path : string) (e : walk_entry) : list SourceFile :=
  if in_git_dir (entry_root e) then []
  else map (make_source_file relpath local_repo_path (entry_root e))
           (filter is_supported (entry_files e)).

(** The enumeration without a limit, in walk order. *)
Definition all_source_files (relpath : string -> string -> string)
           (local_repo_path : string) (walk : list walk_entry)
  : list SourceFile :=
  flat_map (supported_in relpath local_repo_path) walk.

(** Two rectangles overlap when their interiors meet. *)
Definition overlap (a b : Rect) : Prop :=
  (r_x a < r_x b + r_dx b /\ r_x b < r_x a + r_dx a /\
   r_y a < r_y b + r_dy b /\ r_y b < r_y a + r_dy a)%Q.

(** A rectangle lies within the box of corner [(x, y)] and extents
    [dx], [dy]. *)
Definition within (x y dx dy : Q) (r : Rect) : Prop :=
  (x <= r_x r /\ r_x r + r_dx r <= x + dx /\
   y <= r_y r /\ r_y r + r_dy r <= y + dy)%Q.

(** A rectangle realises a value: it has that area and positive
    extents. *)
Definition realises (r : Rect) (v : Q) : Prop :=
  (area r == v /\ 0 < r_dx r /\ 0 < r_dy r)%Q.

(** The box [(x, y, dx, dy)] lies within the box [(x', y', dx', dy')]. *)
Definition box_within (x y dx dy x' y' dx' dy' : Q) : Prop :=
  (x' <= x /\ x + dx <= x' + dx' /\ y' <= y /\ y + dy <= y' + dy')%Q.

(** No two rectangles of a list, taken at different positions, overlap. *)
Definition pairwise_disjoint (rects : list Rect) : Prop :=
  forall i j a b,
    i <> j ->
    nth_error rects i = Some a ->
    nth_error rects j = Some b ->
    ~ overlap a b.

(** A small environment used to exercise the definitions: a clone whose
    walk has a source directory, the [.git] directory and a [.github]
    directory. *)
Definition demo_walk : list walk_entry :=
  [("/tmp/city", [".git"; ".github"; "src"], ["README.md"; "setup.py"]);
   ("/tmp/city/.git", [], ["hook.sh"]);
   ("/tmp/city/.github", [], ["ci.py"]);
   ("/tmp/city/src", [], ["a.py"; "b.py"; "c.js"])].

Definition demo_read (path : string) : option text :=
  if String.eqb path "/tmp/city/setup.py" then Some [97; 10; 98]%N
  else if String.eqb path "/tmp/city/src/a.py" then Some [120; 10]%N
  else if String.eqb path "/tmp/city/src/b.py" then Some []
  else None.

Definition demo_lizard (path : string) : option (list Z) :=
  if String.eqb path "/tmp/city/setup.py" then Some []
  else if String.eqb path "/tmp/city/src/a.py" then Some [3; 4]
  else None.

Definition demo_env : Env :=
  {| GITHUB_TOKEN := None;
     mkdtemp := "/tmp/city";
     git_clone := fun _ _ => true;
     os_walk := fun _ => demo_walk;
     relpath := fun full _ => PyStr.drop 10 full;
     read_text := demo_read;
     lizard_function_list := demo_lizard;
     as_completed := fun files => rev files |}.

(** An environment in which no file can be read. *)
Definition unreadable_env : Env :=
  {| GITHUB_TOKEN := None;
     mkdtemp := "/tmp/city";
     git_clone := fun _ _ => true;
     os_walk := fun _ => demo_walk;
     relpath := fun full _ => PyStr.drop 10 full;
     read_text := fun _ => None;
     lizard_function_list := fun _ => None;
     as_completed := fun files => files |}.

(** An environment whose clone has no file at all. *)
Definition empty_env : Env :=
  {| GITHUB_TOKEN := None;
     mkdtemp := "/tmp/city";
     git_clone := fun _ _ => true;
     os_walk := fun _ => [];
     relpath := fun full _ => PyStr.drop 10 full;
     read_text := fun _ => None;
     lizard_function_list := fun _ => None;
     as_completed := fun files => files |}.

Definition demo_file (name : string) : SourceFile :=
  make_source_file (relpath demo_env) "/tmp/city" "/tmp/city/src" name.

(** The files the enumerator finds in the demo walk. *)
Definition demo_files : list SourceFile :=
  fst (get_source_files_from_local (relpath demo_env) "/tmp/city" MAX_FILES
         demo_walk).

(** The tiles of metrics and rectangles paired by index, as far as the
    shorter list goes. *)
Definition paired_tiles (files_to_render : list FileMetric)
           (rects : list Rect) : list Tile :=
  map (fun p => make_tile (fst p) (snd p)) (combine files_to_render rects).

(** What one completed analysis adds to the scheduler's output. *)
Definition kept_result (task : SourceFile -> outcome) (f : SourceFile)
  : list FileMetric :=
  match task f with
  | Returned (Some result) => [result]
  | Returned None => []
  | Raised _ => []
  end.

Definition demo_metric : FileMetric :=
  {| fm_name := "a.py"; fm_size := 1; fm_complexity := 7; fm_churn := 1 |}.

Definition demo_rects : list Rect :=
  [{| r_x := 0; r_y := 0; r_dx := 75; r_dy := 150 |};
   {| r_x := 75; r_y := 0; r_dx := 75; r_dy := 150 |}].

(** The rectangle a tile occupies on the ground. *)
Definition footprint (t : Tile) : Rect :=
  {| r_x := t_x t; r_y := t_y t; r_dx := t_w t; r_dy := t_d t |}.

(* ===================================================================== *)
(** ** A run on its host: the [try]/[finally] of [build_city_from_github] *)

(** The file [city_data2.json]: absent, not valid JSON, or the tile list
    a run of the script wrote. *)
Inductive data_file : Type :=
| NoFile
| NotJson
| CityJson (city_data : list Tile).

(** How writing [city_data2.json] ends: the list is written, [open]
    raises and the file is as before, or [json.dump] raises after the
    file was truncated. *)
Inductive write_outcome : Type :=
| Written
| OpenFails
| DumpFails.

(** The faults of the operating system at the calls of the pipeline that
    touch it outside [analyze_file] (which catches its own): creating
    the temporary directory and starting [git], writing the data file,
    and removing the temporary directory, be it in the handler of
    [clone_repository] or in the [finally] clause, where [on_rm_error]
    re-raises what it cannot repair.  All are raised as [OSError]s. *)
Record Host : Type := mkHost {
  clone_starts : bool;
  write : write_outcome;
  rmtree_raises : bool
}.

(** A host on which nothing fails. *)
Definition sound_host : Host :=
  {| clone_starts := true; write := Written; rmtree_raises := false |}.

(** How a call of [build_city_from_github] ends. *)
Inductive ending : Type :=
| Returns (city_data : list Tile)
| Raises (e : exn)
| RaisesOSError.

(** The exception that leaves a block whose removal of the temporary
    directory runs on the way out. *)
Definition after_rmtree (host : Host) (e : ending) : ending :=
  if rmtree_raises host then RaisesOSError else e.

(** [build_city_from_github] with its [finally] clause and the faults of
    the host: how the call ends, and the data file it leaves.  The
    parser runs before the [try]; a failed clone leaves
    [local_repo_path] unset, so the [finally] clause removes nothing,
    but the handler of [clone_repository] has removed the directory;
    after a successful clone the directory is removed on every way
    out, after the data file was written if it was. *)
Definition build_city_on_host (env : Env) (host : Host) (repo_url : string)
           (city_data2 : data_file) : ending * data_file :=
  match get_github_repo_info repo_url with
  | Raise e => (Raises e, city_data2)
  | Ok _ =>
      if clone_starts host then
        match clone_repository env repo_url (GITHUB_TOKEN env) with
        | Raise CalledProcessError =>
            (after_rmtree host (Raises CalledProcessError), city_data2)
        | Raise e => (Raises e, city_data2)
        | Ok local_repo_path =>
            let files :=
              fst (get_source_files_from_local (relpath env) local_repo_path
                     MAX_FILES (os_walk env local_repo_path)) in
            match build_city_from_files env files with
            | Raise e => (after_rmtree host (Raises e), city_data2)
            | Ok city_data =>
                match write host with
                | OpenFails => (RaisesOSError, city_data2)
                | DumpFails => (RaisesOSError, NotJson)
                | Written =>
                    (after_rmtree host (Returns city_data),
                     CityJson city_data)
                end
            end
        end
      else (RaisesOSError, city_data2)
  end.

(* ===================================================================== *)
(** ** The command line: [set_github_token] and the [__main__] block *)

(** [set_github_token]: the module-level token is replaced. *)
Definition set_github_token (token : string) (env : Env) : Env :=
  {| GITHUB_TOKEN := Some token;
     mkdtemp := mkdtemp env;
     git_clone := git_clone env;
     os_walk := os_walk env;
     relpath := relpath env;
     read_text := read_text env;
     lizard_function_list := lizard_function_list env;
     as_completed := as_completed env |}.

(** What a run of the script leaves behind: its exit status, the data
    file, the exception of the pipeline reported on the [[FATAL ERROR]]
    line, if any, and whether what was reported is an [OSError] of the
    host instead. *)
Record process : Type := mkProcess {
  exit_status : Z;
  city_data_file : data_file;
  fatal : option exn;
  os_error : bool
}.

(** [str(e)] where the text does not depend on the environment: the
    message of an [Exception], and the text of the [IndexError] a list
    subscript raises.  The text of a [CalledProcessError] names the
    command and its status and is not modelled. *)
Definition exn_text (e : exn) : option string :=
  match e with
  | Exception msg => Some msg
  | IndexError => Some "list index out of range"
  | CalledProcessError => None
  end.

(** The line printed by the handler of the [__main__] block, where its
    text is modelled. *)
Definition fatal_line (p : process) : option string :=
  match fatal p with
  | Some e => option_map (fun text => "[FATAL ERROR] " ++ text) (exn_text e)
  | None => None
  end.

(** The [__main__] block.  [argv] is [sys.argv]; [city_data2] is the
    data file before the run.  The exceptions of the pipeline and the
    [OSError]s of the host are subclasses of [Exception], so the
    handler catches them all and exits with status 1. *)
Definition main (env : Env) (host : Host) (argv : list string)
           (city_data2 : data_file) : process :=
  let env :=
    match argv with
    | _ :: _ :: token :: _ => set_github_token token env
    | _ => env
    end in
  let outcome :=
    match argv with
    | _ :: repo_input :: _ =>
        build_city_on_host env host repo_input city_data2
    | _ => (Raises (Exception "Repository URL is required"), city_data2)
    end in
  match fst outcome with
  | Returns _ =>
      {| exit_status := 0; city_data_file := snd outcome;
         fatal := None; os_error := false |}
  | Raises e =>
      {| exit_status := 1; city_data_file := snd outcome;
         fatal := Some e; os_error := false |}
  | RaisesOSError =>
      {| exit_status := 1; city_data_file := snd outcome;
         fatal := None; os_error := true |}
  end.

(* ===================================================================== *)
(** ** The web application of [app.py] *)

(** The [meta] dictionary of a snapshot. *)
Record SnapshotMeta : Type := mkSnapshotMeta {
  sm_id : string;
  sm_created_at : string;
  sm_repo_url : string;
  sm_label : string;
  sm_file_count : Z
}.

(** The content of a snapshot file. *)
Record Snapshot : Type := mkSnapshot {
  snap_meta : SnapshotMeta;
  snap_data : list Tile
}.

(** The files the application reads and writes: the data file of the
    script, and the snapshot directory, a map from file names to
    snapshots. *)
Record AppState : Type := mkAppState {
  st_city_data : data_file;
  st_snapshots : string -> option Snapshot
}.

(** How [subprocess.run] ends: the child exits (with its status, its two
    output streams and the data file it leaves), the timeout expires (the
    child is killed, leaving the data file in some state), or the call
    raises another exception. *)
Inductive run_result : Type :=
| Completed (returncode : Z) (stdout stderr : string) (after : data_file)
| TimeoutExpired (after : data_file)
| RunError.

(** What the application is given from outside.  [str.strip] removes
    Unicode white space and is kept abstract. *)
Record AppEnv : Type := mkAppEnv {
  strip : string -> string;
  environ_GITHUB_TOKEN : option string;
  sys_executable : string;
  (** [datetime.utcnow().strftime('%Y%m%d-%H%M%S')] at the time of the
      snapshot *)
  utcnow_stamp : string;
  (** the run of a command, given the data file before it *)
  subprocess_run : list string -> data_file -> run_result
}.

(** What [data.get(key)] can be for the handler: a false value (the key
    is absent, or holds [null], [false], zero, an empty string, list or
    object), a string, or a true value that is not a string and so has
    no [strip]. *)
Inductive json_value : Type :=
| JFalsy
| JText (s : string)
| JOther.

(** The body of a POST to [/api/analyze] as [request.get_json()] gives
    it: the call aborts with an HTTP status (the body is not JSON), or
    returns a true value without [get] (a string, a number, a list),
    or an object, of which the three keys read are kept; a false JSON
    value is replaced by the empty object, all keys absent. *)
Inductive posted : Type :=
| Rejected (code : Z)
| NotAnObject
| Object (repo_url label github_token : json_value).

(** The bodies the handlers return.  The text of an error is [None]
    where it is the [str] of an exception the model does not describe;
    [FrameworkPage] is the page the framework answers with by itself,
    when the handler aborts or raises. *)
Inductive body : Type :=
| ErrorBody (error : option string)
| AnalysisBody (data : list Tile) (snapshot : SnapshotMeta) (message : string)
| CityBody (data : list Tile)
| SnapshotBody (payload : Snapshot)
| FrameworkPage.

Record response : Type := mkResponse {
  status : Z;
  payload : body
}.

(** [x or y] on strings that may be absent: [x] when it is a non-empty
    string. *)
Definition or_string (x : option string) (y : string) : string :=
  match x with
  | Some (String a s) => String a s
  | _ => y
  end.

(** [(data.get(key) or '')], on which [strip] is called next: [None]
    stands for the [AttributeError] of a value without [strip]. *)
Definition field_or_empty (v : json_value) : option string :=
  match v with
  | JFalsy => Some EmptyString
  | JText s => Some s
  | JOther => None
  end.

(** [(data.get('github_token') or os.environ.get('GITHUB_TOKEN') or '')] *)
Definition token_or_environ (app : AppEnv) (v : json_value)
  : option string :=
  match v with
  | JText (String a s) => Some (String a s)
  | JOther => None
  | _ => Some (or_string (environ_GITHUB_TOKEN app) EmptyString)
  end.

(** The command handed to [subprocess.run]. *)
Definition scanner_command (app : AppEnv) (repo_url github_token : string)
  : list string :=
  sys_executable app :: "scanner2.py" :: repo_url ::
    match github_token with
    | EmptyString => []
    | String _ _ => [github_token]
    end.

(** The name of the file of a snapshot in the snapshot directory. *)
Definition snapshot_file (snapshot_id : string) : string :=
  snapshot_id ++ ".json".

Definition write_snapshot (name : string) (snapshot : Snapshot)
           (dir : string -> option Snapshot) : string -> option Snapshot :=
  fun other => if String.eqb other name then Some snapshot else dir other.

(** The handler of [POST /api/analyze] from the test on the address on
    (lines 42 to 105), on the three stripped strings. *)
Definition run_analysis (app : AppEnv) (repo_url label github_token : string)
           (st : AppState) : response * AppState :=
  match repo_url with
  | EmptyString =>
      ({| status := 400;
          payload := ErrorBody (Some "Repository URL is required") |}, st)
  | String _ _ =>
      let cmd := scanner_command app repo_url github_token in
      match subprocess_run app cmd (st_city_data st) with
      | TimeoutExpired after =>
          ({| status := 408;
              payload :=
                ErrorBody
                  (Some "Analysis timed out (> 300 seconds). Repository may be too large.") |},
           {| st_city_data := after; st_snapshots := st_snapshots st |})
      | RunError =>
          ({| status := 500; payload := ErrorBody None |}, st)
      | Completed returncode stdout stderr after =>
          let st1 :=
            {| st_city_data := after; st_snapshots := st_snapshots st |} in
          if returncode =? 0 then
            match after with
            | NoFile =>
                ({| status := 400;
                    payload :=
                      ErrorBody
                        (Some "No data generated - check if repository has Python files") |},
                 st1)
            | NotJson => ({| status := 500; payload := ErrorBody None |}, st1)
            | CityJson city_data =>
                let timestamp := utcnow_stamp app in
                let snapshot_id := timestamp in
                let snapshot_meta :=
                  {| sm_id := snapshot_id;
                     sm_created_at := timestamp;
                     sm_repo_url := repo_url;
                     sm_label := or_string (Some label) repo_url;
                     sm_file_count := Z.of_nat (List.length city_data) |} in
                ({| status := 200;
                    payload := AnalysisBody city_data snapshot_meta stdout |},
                 {| st_city_data := after;
                    st_snapshots :=
                      write_snapshot (snapshot_file snapshot_id)
                        {| snap_meta := snapshot_meta;
                           snap_data := city_data |}
                        (st_snapshots st) |})
            end
          else
            let error_msg := or_string (Some stderr) stdout in
            ({| status := 400;
                payload := ErrorBody (Some ("Analysis failed: " ++ error_msg)) |},
             st1)
      end
  end.

(** The handler of [POST /api/analyze].  Reading the body and the three
    fields (lines 35 to 40) comes before the [try]: an abort of
    [get_json] is answered with its status, and the [AttributeError] of
    a body without [get] or of a field without [strip] is answered by
    the framework with 500, in both cases before the address is
    tested. *)
Definition analyze (app : AppEnv) (posted_body : posted) (st : AppState)
  : response * AppState :=
  match posted_body with
  | Rejected code => ({| status := code; payload := FrameworkPage |}, st)
  | NotAnObject => ({| status := 500; payload := FrameworkPage |}, st)
  | Object repo_url label github_token =>
      match field_or_empty repo_url, field_or_empty label,
            token_or_environ app github_token with
      | Some repo_url, Some label, Some github_token =>
          run_analysis app (strip app repo_url) (strip app label)
                       (strip app github_token) st
      | _, _, _ => ({| status := 500; payload := FrameworkPage |}, st)
      end
  end.

(** The handler of [GET /api/data]. *)
Definition get_current_data (st : AppState) : response :=
  match st_city_data st with
  | CityJson city_data => {| status := 200; payload := CityBody city_data |}
  | NotJson =>
      {| status := 400;
         payload :=
           ErrorBody (Some "The city_data2.json file is not valid JSON.") |}
  | NoFile => {| status := 200; payload := CityBody [] |}
  end.

(** The handler of [GET /api/snapshots/<snapshot_id>]. *)
Definition get_snapshot (snapshot_id : string) (st : AppState) : response :=
  match st_snapshots st (snapshot_file snapshot_id) with
  | None =>
      {| status := 404; payload := ErrorBody (Some "Snapshot not found") |}
  | Some snapshot => {| status := 200; payload := SnapshotBody snapshot |}
  end.

(** The child process when the command is the script: its arguments are
    the command without the interpreter, and it leaves the data file as
    [main] does.  [out] and [err] are what it printed. *)
Definition run_script (env : Env) (host : Host) (out err : string)
           (before : data_file) (cmd : list string) : run_result :=
  match cmd with
  | [] => RunError
  | _ :: argv =>
      let p := main env host argv before in
      Completed (exit_status p) out err (city_data_file p)
  end.

(** An application whose child process is the script, which inherits the
    token of the environment and finishes within the timeout. *)
Definition app_over (env : Env) (host : Host) (strip : string -> string)
           (out err stamp : string) : AppEnv :=
  {| strip := strip;
     environ_GITHUB_TOKEN := GITHUB_TOKEN env;
     sys_executable := "python3";
     utcnow_stamp := stamp;
     subprocess_run :=
       fun cmd before => run_script env host out err before cmd |}.


Definition empty_state : AppState :=
  {| st_city_data := NoFile; st_snapshots := fun _ => None |}.

(** A host on which the temporary directory cannot be removed. *)
Definition sticky_host : Host :=
  {| clone_starts := true; write := Written; rmtree_raises := true |}.

(* ===================================================================== *)
(** * Properties *)

(** ** Strings *)

Lemma startswith_app (p s : string) : PyStr.startswith (p ++ s) p = true.
Proof.
  induction p as [|a p IH]; simpl; [now destruct s|].
  now rewrite Ascii.eqb_refl, IH.
Qed.

Lemma startswith_inv (s p : string) :
  PyStr.startswith s p = true -> exists rest, s = p ++ rest.
Proof.
  revert s; induction p as [|b p IH]; intros s H; simpl in *.
  - now exists s.
  - destruct s as [|a s]; [discriminate|].
    apply andb_true_iff in H as [Hab Hrest].
    apply Ascii.eqb_eq in Hab; subst b.
    destruct (IH _ Hrest) as [rest ->].
    now exists rest.
Qed.

(** [contains] decides the occurrence of [p] as a contiguous substring. *)
Lemma contains_iff (s p : string) :
  PyStr.contains s p = true <-> exists pre post, s = pre ++ p ++ post.
Proof.
  split.
  - induction s as [|a s IH]; simpl; intros H.
    + rewrite orb_false_r in H.
      destruct (startswith_inv _ _ H) as [rest Hrest].
      now exists EmptyString, rest.
    + apply orb_true_iff in H as [H|H].
      * destruct (startswith_inv _ _ H) as [rest Hrest].
        now exists EmptyString, rest.
      * destruct (IH H) as (pre & post & ->).
        now exists (String a pre), post.
  - intros (pre & post & ->).
    induction pre as [|a pre IH].
    + change (EmptyString ++ p ++ post) with (p ++ post).
      pose proof (startswith_app p post) as Hp.
      destruct (p ++ post); simpl; now rewrite Hp.
    + simpl. simpl in IH. rewrite IH. apply orb_true_r.
Qed.

(** Splitting a string that has no separator gives the string alone. *)
Lemma split_no_separator (c : ascii) (s : string) :
  PyStr.has_char c s = false -> PyStr.split c s = [s].
Proof.
  induction s as [|a s IH]; simpl; intros H; [reflexivity|].
  apply orb_false_iff in H as [Hac Hs].
  now rewrite Hac, (IH Hs).
Qed.

(** A split has two elements or more exactly when a separator occurs. *)
Lemma split_with_separator (c : ascii) (s : string) :
  PyStr.has_char c s = true ->
  exists p0 p1 rest, PyStr.split c s = p0 :: p1 :: rest.
Proof.
  induction s as [|a s IH]; simpl; intros H; [discriminate|].
  destruct (Ascii.eqb a c) eqn:Hac.
  - destruct s as [|b s]; simpl.
    + now exists EmptyString, EmptyString, [].
    + destruct (Ascii.eqb b c).
      * now eexists _, _, _.
      * destruct (PyStr.split c s); now eexists _, _, _.
  - simpl in H. destruct (IH H) as (p0 & p1 & rest & ->).
    now exists (String a p0), p1, rest.
Qed.

(** ** The URL parser *)

(** C10: a URL whose normalised form (trailing slashes, GitHub prefix and
    trailing [.git] stripped) has no ['/'] makes [get_github_repo_info]
    raise [IndexError], and [build_city_from_github], which calls it
    outside any [try], ends with that exception in every environment. *)
Theorem repo_url_without_slash_raises_IndexError :
  forall url : string,
    PyStr.has_char "/" (strip_repo_url url) = false ->
    get_github_repo_info url = Raise IndexError /\
    forall env : Env, build_city_from_github env url = Raise IndexError.
Proof.
  intros url Hno.
  assert (Hinfo : get_github_repo_info url = Raise IndexError).
  { unfold get_github_repo_info.
    now rewrite (split_no_separator _ _ Hno). }
  split; [exact Hinfo|].
  intros env. unfold build_city_from_github. now rewrite Hinfo.
Qed.

Lemma repo_url_without_slash_witness :
  strip_repo_url "https://github.com/owner" = "owner" /\
  get_github_repo_info "https://github.com/owner" = Raise IndexError /\
  forall env : Env,
    build_city_from_github env "https://github.com/owner" = Raise IndexError.
Proof.
  split; [reflexivity|].
  apply (repo_url_without_slash_raises_IndexError "https://github.com/owner").
  reflexivity.
Defined.

(** ** The visual encoder *)

(** C7: the colour is chosen among five distinct buckets by the
    ascending thresholds 5, 15, 30 and 50, the lowest complexity first:
    at most 5 gives bucket 1, 6 to 15 bucket 2, 16 to 30 bucket 3, 31 to
    50 bucket 4, above 50 bucket 5; the boundaries 5, 6, 15, 16 and 51
    fall in buckets 1, 2, 2, 3 and 5. *)
Theorem color_bucket_thresholds :
  forall complexity : Z,
    (complexity <= 5 -> color_of complexity = "#00ffcc") /\
    (6 <= complexity <= 15 -> color_of complexity = "#00ff88") /\
    (16 <= complexity <= 30 -> color_of complexity = "#FFC300") /\
    (31 <= complexity <= 50 -> color_of complexity = "#ff9900") /\
    (50 < complexity -> color_of complexity = "#ff4444") /\
    nth_error color_buckets (bucket_of complexity - 1) =
      Some (color_of complexity) /\
    NoDup color_buckets /\
    nth_error color_buckets 0 = Some (color_of 5) /\
    nth_error color_buckets 1 = Some (color_of 6) /\
    nth_error color_buckets 1 = Some (color_of 15) /\
    nth_error color_buckets 2 = Some (color_of 16) /\
    nth_error color_buckets 4 = Some (color_of 51).
Proof.
  intros c.
  assert (Hranges :
            (c <= 5 -> color_of c = "#00ffcc") /\
            (6 <= c <= 15 -> color_of c = "#00ff88") /\
            (16 <= c <= 30 -> color_of c = "#FFC300") /\
            (31 <= c <= 50 -> color_of c = "#ff9900") /\
            (50 < c -> color_of c = "#ff4444")).
  { unfold color_of.
    repeat split; intros H;
      repeat match goal with
             | |- context [?a <=? ?b] => destruct (Z.leb_spec a b)
             end; try reflexivity; lia. }
  destruct Hranges as (H1 & H2 & H3 & H4 & H5).
  repeat (split; [assumption|]).
  split; [|split; [|repeat split]].
  - unfold bucket_of, color_of.
    repeat match goal with
           | |- context [?a <=? ?b] => destruct (Z.leb_spec a b)
           end; reflexivity.
  - unfold color_buckets.
    repeat constructor; simpl; intuition discriminate.
Qed.

Lemma color_bucket_thresholds_witness :
  color_of 5 = "#00ffcc" /\ color_of 15 = "#00ff88" /\
  color_of 16 = "#FFC300" /\ color_of 50 = "#ff9900" /\
  color_of 51 = "#ff4444".
Proof.
  split; [|split; [|split; [|split]]].
  - apply (color_bucket_thresholds 5); lia.
  - apply (color_bucket_thresholds 15); lia.
  - apply (color_bucket_thresholds 16); lia.
  - apply (color_bucket_thresholds 50); lia.
  - apply (color_bucket_thresholds 51); lia.
Defined.

(** A normalised URL with a separator is parsed into its first two
    components, so the failure above is the only one of the parser. *)
Lemma repo_url_with_slash_parses (url : string) :
  PyStr.has_char "/" (strip_repo_url url) = true ->
  exists owner repo, get_github_repo_info url = Ok (owner, repo).
Proof.
  intros H. unfold get_github_repo_info.
  destruct (split_with_separator _ _ H) as (p0 & p1 & rest & ->).
  now exists p0, p1.
Qed.

(** ** The analyzer *)

Lemma splitlines_nonempty (c : N) (s : text) : splitlines (c :: s) <> [].
Proof.
  simpl. destruct (is_line_boundary c); [discriminate|].
  destruct (splitlines s); discriminate.
Qed.

Lemma sumZ_from (l : list Z) (a : Z) : fold_left Z.add l a = a + sumZ l.
Proof.
  unfold sumZ. revert a.
  induction l as [|b l IH]; intros a; simpl; [lia|].
  rewrite (IH (a + b)), (IH b). lia.
Qed.

Lemma sumZ_cons (a : Z) (l : list Z) : sumZ (a :: l) = a + sumZ l.
Proof. unfold sumZ at 1. simpl. apply sumZ_from. Qed.

Lemma sumZ_nonneg (l : list Z) : Forall (fun c => 0 <= c) l -> 0 <= sumZ l.
Proof.
  induction 1 as [|c l Hc _ IH]; [unfold sumZ; simpl; lia|].
  rewrite sumZ_cons. lia.
Qed.

(** [x or 1] is never zero, and is the floor at 1 of a natural number. *)
Lemma or_one_nonzero (x : Z) : or_one x <> 0.
Proof. unfold or_one. destruct (Z.eqb_spec x 0); lia. Qed.

Lemma or_one_floor (x : Z) : 0 <= x -> or_one x = Z.max 1 x.
Proof. unfold or_one. destruct (Z.eqb_spec x 0); lia. Qed.

(** What [analyze_file] returns for a readable, non-empty file that
    lizard accepts. *)
Lemma analyze_file_success (env : Env) (file_info : SourceFile)
      (c : N) (content : text) (function_list : list Z) :
  read_text env (sf_local_path file_info) = Some (c :: content) ->
  lizard_function_list env (sf_local_path file_info) = Some function_list ->
  analyze_file env file_info =
    Some {| fm_name := sf_name file_info;
            fm_size :=
              Z.max 1 (Z.of_nat (List.length (splitlines (c :: content))));
            fm_complexity := or_one (sumZ function_list);
            fm_churn := 1 |}.
Proof.
  intros Hread Hliz. unfold analyze_file. rewrite Hread, Hliz.
  destruct (splitlines (c :: content)) eqn:E; [|reflexivity].
  now apply splitlines_nonempty in E.
Qed.

(** The inputs behind a successful analysis. *)
Lemma analyze_file_inv (env : Env) (file_info : SourceFile) (m : FileMetric) :
  analyze_file env file_info = Some m ->
  exists c content function_list,
    read_text env (sf_local_path file_info) = Some (c :: content) /\
    lizard_function_list env (sf_local_path file_info) = Some function_list.
Proof.
  unfold analyze_file. intros H.
  destruct (read_text env _) as [[|c content]|]; try discriminate.
  destruct (splitlines (c :: content)); try discriminate.
  destruct (lizard_function_list env _) as [fl|]; try discriminate.
  now exists c, content, fl.
Qed.

(** C3: for an analyzable file (readable, non-empty, accepted by lizard)
    the analyzer returns a metric whose complexity is 1 when no function
    is detected, is never 0, and is the sum of the functions' cyclomatic
    complexities floored at 1 (the scores being natural numbers). *)
Theorem complexity_is_floored_sum :
  forall (env : Env) (file_info : SourceFile)
         (c : N) (content : text) (function_list : list Z),
    read_text env (sf_local_path file_info) = Some (c :: content) ->
    lizard_function_list env (sf_local_path file_info) = Some function_list ->
    exists m : FileMetric,
      analyze_file env file_info = Some m /\
      (function_list = [] -> fm_complexity m = 1) /\
      fm_complexity m <> 0 /\
      (Forall (fun score => 0 <= score) function_list ->
       fm_complexity m = Z.max 1 (sumZ function_list)).
Proof.
  intros env file_info c content fl Hread Hliz.
  eexists. split; [exact (analyze_file_success _ _ _ _ _ Hread Hliz)|].
  simpl. repeat split.
  - now intros ->.
  - apply or_one_nonzero.
  - intros Hpos. apply or_one_floor, sumZ_nonneg, Hpos.
Qed.

Lemma complexity_is_floored_sum_witness :
  exists m : FileMetric,
    analyze_file demo_env (demo_file "a.py") = Some m /\
    fm_complexity m <> 0 /\
    fm_complexity m = Z.max 1 (sumZ [3; 4]).
Proof.
  destruct (complexity_is_floored_sum demo_env (demo_file "a.py")
              120%N [10%N] [3; 4] eq_refl eq_refl)
    as (m & Hm & _ & Hnz & Hsum).
  exists m. split; [exact Hm|]. split; [exact Hnz|].
  apply Hsum. repeat constructor; lia.
Defined.

(** The number of lines [splitlines] returns: one per line break, and
    one more when characters follow the last break. *)
Lemma splitlines_length (s : text) :
  List.length (splitlines s) =
    (line_break_count s + if ends_unterminated s then 1 else 0)%nat.
Proof.
  remember (List.length s) as n eqn:Hn.
  revert s Hn. induction n as [n IH] using lt_wf_ind. intros s Hn.
  destruct s as [|c s']; [reflexivity|].
  assert (Hs' : List.length (splitlines s') =
                (line_break_count s'
                 + if ends_unterminated s' then 1 else 0)%nat).
  { apply (IH (List.length s')); [subst n; simpl; lia | reflexivity]. }
  cbn [splitlines line_break_count ends_unterminated].
  destruct (is_line_boundary c) eqn:Hc.
  - destruct s' as [|next s'']; [simpl; lia|].
    destruct (is_crlf c next) eqn:Hcrlf.
    + assert (Hs'' : List.length (splitlines s'') =
                     (line_break_count s''
                      + if ends_unterminated s'' then 1 else 0)%nat).
      { apply (IH (List.length s'')); [subst n; simpl; lia | reflexivity]. }
      assert (Hnext : is_line_boundary next = true).
      { unfold is_crlf in Hcrlf. apply andb_true_iff in Hcrlf as [_ Hnx].
        apply N.eqb_eq in Hnx. now subst next. }
      cbn [List.length ends_unterminated]. rewrite Hs''.
      destruct s'' as [|d s3]; [rewrite Hnext; simpl; lia|].
      cbn [ends_unterminated]. lia.
    + cbn [List.length]. rewrite Hs'. cbn [ends_unterminated]. lia.
  - destruct s' as [|next s'']; [reflexivity|].
    destruct (splitlines (next :: s'')) as [|line lines] eqn:E.
    + now apply splitlines_nonempty in E.
    + cbn [List.length] in *. rewrite Hs'. cbn [ends_unterminated]. lia.
Qed.

(** C4 (as stated, refuted): the content [a LF b] has one line break, so
    the specification's count floored at 1 is 1, while the analyzer
    reports the two lines [splitlines] returns. *)
Lemma line_count_differs_from_break_count :
  let file_info :=
    make_source_file (relpath demo_env) "/tmp/city" "/tmp/city" "setup.py" in
  let content := [97; 10; 98]%N in
  read_text demo_env (sf_local_path file_info) = Some content /\
  option_map fm_size (analyze_file demo_env file_info) = Some 2 /\
  spec_line_count content = 1.
Proof. repeat split. Qed.

(** C4 (amended): the size the analyzer reports is the number of lines of
    the content as [splitlines] cuts it, floored at 1; that number is the
    count of line breaks plus one when characters follow the last
    break, and it is at least 1 for every analysed file. *)
Theorem line_count_is_number_of_lines :
  forall (env : Env) (file_info : SourceFile) (m : FileMetric),
    analyze_file env file_info = Some m ->
    exists content : text,
      read_text env (sf_local_path file_info) = Some content /\
      fm_size m = Z.max 1 (Z.of_nat (List.length (splitlines content))) /\
      List.length (splitlines content) =
        (line_break_count content
         + if ends_unterminated content then 1 else 0)%nat /\
      fm_size m = Z.of_nat (List.length (splitlines content)).
Proof.
  intros env file_info m Hm.
  destruct (analyze_file_inv _ _ _ Hm) as (c & content & fl & Hread & Hliz).
  rewrite (analyze_file_success _ _ _ _ _ Hread Hliz) in Hm.
  injection Hm as <-. exists (c :: content).
  split; [exact Hread|]. split; [reflexivity|].
  split; [apply splitlines_length|].
  assert (Hlen : (1 <= List.length (splitlines (c :: content)))%nat).
  { pose proof (splitlines_nonempty c content) as Hne.
    destruct (splitlines (c :: content)); [contradiction | simpl; lia]. }
  change (Z.max 1 (Z.of_nat (List.length (splitlines (c :: content)))) =
          Z.of_nat (List.length (splitlines (c :: content)))).
  lia.
Qed.

Lemma line_count_is_number_of_lines_witness :
  exists content : text,
    read_text demo_env "/tmp/city/src/a.py" = Some content /\
    1 = Z.of_nat (List.length (splitlines content)).
Proof.
  destruct (line_count_is_number_of_lines demo_env (demo_file "a.py")
              {| fm_name := "a.py"; fm_size := 1;
                 fm_complexity := 7; fm_churn := 1 |} eq_refl)
    as (content & Hread & _ & _ & Hsize).
  exists content. split; [exact Hread | exact Hsize].
Defined.

(** ** The file enumerator *)

Local Open Scope list_scope.

Lemma firstn_app_short {A : Type} (n : nat) (l1 l2 : list A) :
  (n <= List.length l1)%nat -> firstn n (l1 ++ l2) = firstn n l1.
Proof.
  intros H. rewrite firstn_app.
  replace (n - List.length l1)%nat with O by lia.
  simpl. apply app_nil_r.
Qed.

Section EnumeratorFacts.

Variable relpath : string -> string -> string.
Variable local_repo_path : string.

Let mk := make_source_file relpath local_repo_path.

(** The files of a directory that pass the extension filter. *)
Let kept (root : string) (files : list string) : list SourceFile :=
  map (mk root) (filter is_supported files).

(** Entries whose root contains [.git] do not change the scan. *)
Lemma scan_walk_skips_git (max_files : Z) (e : walk_entry)
      (w1 w2 : list walk_entry) (acc : list SourceFile) :
  in_git_dir (entry_root e) = true ->
  scan_walk relpath local_repo_path max_files (w1 ++ e :: w2) acc =
  scan_walk relpath local_repo_path max_files (w1 ++ w2) acc.
Proof.
  intros Hgit. revert acc.
  induction w1 as [|e1 w1 IH]; intros acc; simpl.
  - now rewrite Hgit.
  - destruct (in_git_dir (entry_root e1)); [apply IH|].
    destruct (scan_files _ _ _ _ _ _); [apply IH | reflexivity].
Qed.

Section WithLimit.

Variable max_files : Z.
Hypothesis max_files_positive : 1 <= max_files.

Let limit : nat := Z.to_nat max_files.

(** The inner loop either ends below the limit with every supported
    file appended, or returns the first [limit] files. *)
Lemma scan_files_spec (root : string) (files : list string)
      (acc : list SourceFile) :
  (List.length acc < limit)%nat ->
  scan_files relpath local_repo_path max_files root files acc =
    if (List.length (acc ++ kept root files) <? limit)%nat
    then Continue (acc ++ kept root files)
    else Return (firstn limit (acc ++ kept root files)).
Proof.
  revert acc. induction files as [|file rest IH]; intros acc Hacc.
  - simpl. unfold kept. simpl. rewrite app_nil_r.
    destruct (Nat.ltb_spec (List.length acc) limit); [reflexivity|lia].
  - cbn [scan_files]. unfold kept. cbn [filter].
    destruct (is_supported file) eqn:Hsup; cbn [map].
    + fold (mk root file). fold (kept root rest).
      rewrite Z.geb_leb.
      destruct (Z.leb_spec max_files
                  (Z.of_nat (List.length (acc ++ [mk root file]))))
        as [Hfull|Hroom].
      * rewrite length_app in Hfull. simpl in Hfull.
        assert (Hlen : List.length (acc ++ [mk root file]) = limit).
        { rewrite length_app. simpl. unfold limit in *. lia. }
        replace (acc ++ mk root file :: kept root rest)
          with ((acc ++ [mk root file]) ++ kept root rest)
          by (now rewrite <- app_assoc).
        destruct (Nat.ltb_spec
                    (List.length
                       ((acc ++ [mk root file]) ++ kept root rest)) limit)
          as [Hlt|Hge].
        -- rewrite length_app in Hlt. lia.
        -- rewrite firstn_app_short by lia.
           rewrite <- Hlen at 1. now rewrite firstn_all.
      * rewrite IH.
        -- now rewrite <- app_assoc.
        -- rewrite length_app in *. simpl in *. unfold limit. lia.
    + fold (kept root rest). rewrite Z.geb_leb.
      destruct (Z.leb_spec max_files (Z.of_nat (List.length acc)));
        [unfold limit in *; lia|].
      now apply IH.
Qed.

(** The outer loop returns the first [limit] files of the unlimited
    enumeration, and warns exactly when that many exist. *)
Lemma scan_walk_spec (walk : list walk_entry) (acc : list SourceFile) :
  (List.length acc < limit)%nat ->
  scan_walk relpath local_repo_path max_files walk acc =
    (firstn limit (acc ++ all_source_files relpath local_repo_path walk),
     (limit <=?
      List.length
        (acc ++ all_source_files relpath local_repo_path walk))%nat).
Proof.
  revert acc. induction walk as [|e rest IH]; intros acc Hacc.
  - simpl. rewrite app_nil_r.
    rewrite firstn_all2 by lia.
    destruct (Nat.leb_spec limit (List.length acc)); [lia|reflexivity].
  - cbn [scan_walk all_source_files flat_map].
    unfold supported_in at 1 3.
    destruct (in_git_dir (entry_root e)).
    + simpl. now apply IH.
    + fold (mk (entry_root e)). fold (kept (entry_root e) (entry_files e)).
      rewrite scan_files_spec by exact Hacc.
      fold (all_source_files relpath local_repo_path rest).
      rewrite !app_assoc.
      set (acc' := acc ++ kept (entry_root e) (entry_files e)).
      destruct (Nat.ltb_spec (List.length acc') limit) as [Hlt|Hge].
      * now apply IH.
      * rewrite firstn_app_short by exact Hge.
        f_equal. symmetry. apply Nat.leb_le.
        rewrite length_app. lia.
Qed.

End WithLimit.

End EnumeratorFacts.

(** C8 (as stated, refuted): with a maximum of 0 the limit is tested only
    after the first supported file has been appended, so one entry is
    returned, which is more than the maximum. *)
Lemma file_limit_zero_returns_one_file :
  let result :=
    get_source_files_from_local (relpath demo_env) "/tmp/city" 0
      [("/tmp/city/src", [], ["a.py"; "b.py"])] in
  List.length (fst result) = 1%nat /\
  snd result = true /\
  ~ (Z.of_nat (List.length (fst result)) <= 0).
Proof. repeat split. intros H. vm_compute in H. now apply H. Qed.

(** C8 (amended): for a maximum of at least 1 the enumerator returns, in
    walk order, the first [max_files] supported files outside [.git]
    directories (all of them when fewer exist), hence at most
    [max_files] entries; it returns normally, and the warning is printed
    exactly when at least [max_files] such files exist. *)
Theorem enumerator_respects_positive_limit :
  forall (relpath : string -> string -> string) (local_repo_path : string)
         (max_files : Z) (walk : list walk_entry),
    1 <= max_files ->
    let result :=
      get_source_files_from_local relpath local_repo_path max_files walk in
    let unlimited := all_source_files relpath local_repo_path walk in
    fst result = firstn (Z.to_nat max_files) unlimited /\
    Z.of_nat (List.length (fst result)) <= max_files /\
    snd result = (max_files <=? Z.of_nat (List.length unlimited)).
Proof.
  intros relpath path max_files walk Hmax result unlimited.
  subst result unlimited. unfold get_source_files_from_local.
  rewrite scan_walk_spec by (simpl; lia). cbn [fst snd app].
  split; [reflexivity|]. split.
  - pose proof (firstn_le_length (Z.to_nat max_files)
                  (all_source_files relpath path walk)). lia.
  - destruct (Nat.leb_spec (Z.to_nat max_files)
                (List.length (all_source_files relpath path walk)));
      destruct (Z.leb_spec max_files
                  (Z.of_nat
                     (List.length (all_source_files relpath path walk))));
      try reflexivity; lia.
Qed.

Lemma enumerator_respects_positive_limit_witness :
  let result :=
    get_source_files_from_local (relpath demo_env) "/tmp/city" 2 demo_walk in
  map sf_path (fst result) = ["setup.py"; "src/a.py"] /\
  Z.of_nat (List.length (fst result)) <= 2 /\
  snd result = true.
Proof.
  destruct (enumerator_respects_positive_limit
              (relpath demo_env) "/tmp/city" 2 demo_walk ltac:(lia))
    as (Hfound & Hlen & Hwarn).
  split; [now rewrite Hfound|]. split; [exact Hlen | exact Hwarn].
Defined.

(** C9: a walked directory whose path has [.git] anywhere in it (written
    [pre ++ ".git" ++ post], so [.github] or [my.gitlab] as well as the
    metadata directory) contributes nothing: the enumerator's result,
    files and warning, is the same as if the walk did not have that
    directory.  The filter is a substring test on the path. *)
Theorem git_substring_directories_are_skipped :
  forall (relpath : string -> string -> string) (local_repo_path : string)
         (max_files : Z) (before after : list walk_entry)
         (root pre post : string) (dirs files : list string),
    root = (pre ++ ".git" ++ post)%string ->
    in_git_dir root = true /\
    get_source_files_from_local relpath local_repo_path max_files
      (before ++ (root, dirs, files) :: after) =
    get_source_files_from_local relpath local_repo_path max_files
      (before ++ after).
Proof.
  intros relpath path max_files before after root pre post dirs files Hroot.
  assert (Hgit : in_git_dir root = true).
  { unfold in_git_dir. apply contains_iff. now exists pre, post. }
  split; [exact Hgit|].
  unfold get_source_files_from_local.
  now apply scan_walk_skips_git.
Qed.

Lemma git_substring_directories_are_skipped_witness :
  in_git_dir "/tmp/city/.github" = true /\
  get_source_files_from_local (relpath demo_env) "/tmp/city" MAX_FILES
    demo_walk =
  get_source_files_from_local (relpath demo_env) "/tmp/city" MAX_FILES
    [("/tmp/city", [".git"; ".github"; "src"], ["README.md"; "setup.py"]);
     ("/tmp/city/.git", [], ["hook.sh"]);
     ("/tmp/city/src", [], ["a.py"; "b.py"; "c.js"])].
Proof.
  apply (git_substring_directories_are_skipped
           (relpath demo_env) "/tmp/city" MAX_FILES
           [("/tmp/city", [".git"; ".github"; "src"],
             ["README.md"; "setup.py"]);
            ("/tmp/city/.git", [], ["hook.sh"])]
           [("/tmp/city/src", [], ["a.py"; "b.py"; "c.js"])]
           "/tmp/city/.github" "/tmp/city/" "hub" [] ["ci.py"]).
  reflexivity.
Defined.

(** Conversely, a directory is scanned only when its path is free of
    [.git]: every file returned was built from such a directory. *)
Lemma enumerated_files_come_from_non_git_directories
      (relpath : string -> string -> string) (local_repo_path : string)
      (walk : list walk_entry) (sf : SourceFile) :
  In sf (all_source_files relpath local_repo_path walk) ->
  exists e file,
    In e walk /\ in_git_dir (entry_root e) = false /\
    In file (entry_files e) /\ is_supported file = true /\
    sf = make_source_file relpath local_repo_path (entry_root e) file.
Proof.
  unfold all_source_files. intros H.
  apply in_flat_map in H as (e & He & Hsf).
  unfold supported_in in Hsf.
  destruct (in_git_dir (entry_root e)) eqn:Hgit; [contradiction|].
  apply in_map_iff in Hsf as (file & <- & Hfile).
  apply filter_In in Hfile as [Hin Hsup].
  now exists e, file.
Qed.

(** ** The assembler *)

Lemma skipn_nth_error {A : Type} (l : list A) (i : nat) (a : A) :
  nth_error l i = Some a -> skipn i l = a :: skipn (S i) l.
Proof.
  revert i. induction l as [|b l IH]; intros [|i] H; simpl in *;
    try discriminate.
  - now injection H as ->.
  - now apply IH.
Qed.

(** The loop started at index [i]: it fails on the first index past the
    rectangles, and otherwise pairs every metric with the rectangle of
    its index. *)
Lemma assemble_from_spec (files_to_render : list FileMetric)
      (rects : list Rect) (i : nat) (city_data : list Tile) :
  (i <= List.length rects)%nat ->
  assemble_from i files_to_render rects city_data =
    if (i + List.length files_to_render <=? List.length rects)%nat
    then Ok (city_data ++ paired_tiles files_to_render (skipn i rects))
    else Raise IndexError.
Proof.
  revert i city_data.
  induction files_to_render as [|m rest IH]; intros i city_data Hi.
  - simpl. unfold paired_tiles. simpl. rewrite app_nil_r.
    destruct (Nat.leb_spec (i + 0) (List.length rects)); [reflexivity|lia].
  - cbn [assemble_from List.length].
    destruct (nth_error rects i) as [rect|] eqn:Hnth.
    + assert (Hlt : (i < List.length rects)%nat)
        by (apply nth_error_Some; congruence).
      rewrite IH by lia. rewrite (skipn_nth_error _ _ _ Hnth).
      replace (S i + List.length rest)%nat
        with (i + S (List.length rest))%nat by lia.
      destruct (Nat.leb_spec (i + S (List.length rest)) (List.length rects));
        [|reflexivity].
      unfold paired_tiles. cbn [combine map fst snd].
      now rewrite <- app_assoc.
    + apply nth_error_None in Hnth.
      destruct (Nat.leb_spec (i + S (List.length rest)) (List.length rects));
        [lia | reflexivity].
Qed.

Lemma paired_tiles_length (files_to_render : list FileMetric)
      (rects : list Rect) :
  (List.length files_to_render <= List.length rects)%nat ->
  List.length (paired_tiles files_to_render rects) =
    List.length files_to_render.
Proof.
  intros H. unfold paired_tiles.
  rewrite length_map, length_combine. lia.
Qed.

Lemma assemble_spec (files_to_render : list FileMetric) (rects : list Rect) :
  assemble files_to_render rects =
    if (List.length files_to_render <=? List.length rects)%nat
    then Ok (paired_tiles files_to_render rects)
    else Raise IndexError.
Proof.
  unfold assemble. rewrite assemble_from_spec by lia. reflexivity.
Qed.

(** C6 (as stated, refuted): one metric and two rectangles differ in
    number, yet the assembler succeeds with one tile and ignores the
    second rectangle. *)
Lemma assembler_accepts_surplus_rectangles :
  List.length [demo_metric] <> List.length demo_rects /\
  assemble [demo_metric] demo_rects =
    Ok (paired_tiles [demo_metric] demo_rects) /\
  List.length (paired_tiles [demo_metric] demo_rects) = 1%nat.
Proof. repeat split. discriminate. Qed.

(** C6 (amended): with fewer rectangles than metrics the assembler fails
    the run, by the [IndexError] of the subscript; with at least as many
    rectangles it returns one tile per metric, paired by index, and the
    rectangles past the last metric are ignored. *)
Theorem assembler_fails_only_on_missing_rectangles :
  forall (files_to_render : list FileMetric) (rects : list Rect),
    ((List.length rects < List.length files_to_render)%nat ->
     assemble files_to_render rects = Raise IndexError) /\
    ((List.length files_to_render <= List.length rects)%nat ->
     assemble files_to_render rects =
       Ok (paired_tiles files_to_render rects) /\
     List.length (paired_tiles files_to_render rects) =
       List.length files_to_render).
Proof.
  intros files_to_render rects. rewrite assemble_spec.
  split; intros H.
  - destruct (Nat.leb_spec (List.length files_to_render) (List.length rects));
      [lia | reflexivity].
  - destruct (Nat.leb_spec (List.length files_to_render) (List.length rects));
      [|lia].
    split; [reflexivity | now apply paired_tiles_length].
Qed.

Lemma assembler_fails_only_on_missing_rectangles_witness :
  assemble [demo_metric; demo_metric; demo_metric] demo_rects =
    Raise IndexError /\
  assemble [demo_metric; demo_metric] demo_rects =
    Ok (paired_tiles [demo_metric; demo_metric] demo_rects).
Proof.
  split.
  - apply (assembler_fails_only_on_missing_rectangles
             [demo_metric; demo_metric; demo_metric] demo_rects).
    simpl; lia.
  - apply (assembler_fails_only_on_missing_rectangles
             [demo_metric; demo_metric] demo_rects).
    simpl; lia.
Defined.

(** ** The layout engine: one rectangle per value *)

Lemma stack_down_length (sizes : list Q) (x y width : Q) :
  List.length (Squarify.stack_down sizes x y width) = List.length sizes.
Proof.
  revert y. induction sizes as [|s rest IH]; intros y; simpl;
    [reflexivity | now rewrite IH].
Qed.

Lemma stack_right_length (sizes : list Q) (x y height : Q) :
  List.length (Squarify.stack_right sizes x y height) = List.length sizes.
Proof.
  revert x. induction sizes as [|s rest IH]; intros x; simpl;
    [reflexivity | now rewrite IH].
Qed.

Lemma layout_length (sizes : list Q) (x y dx dy : Q) :
  List.length (Squarify.layout sizes x y dx dy) = List.length sizes.
Proof.
  unfold Squarify.layout, Squarify.layoutrow, Squarify.layoutcol.
  destruct (Qle_bool dy dx);
    [apply stack_down_length | apply stack_right_length].
Qed.

(** The row never shrinks and never runs past the values. *)
Lemma row_length_bounds (sizes : list Q) (x y dx dy : Q) (i fuel : nat) :
  (i <= List.length sizes)%nat ->
  (i <= Squarify.row_length sizes x y dx dy i fuel <= List.length sizes)%nat.
Proof.
  revert i. induction fuel as [|fuel IH]; intros i Hi; simpl; [lia|].
  destruct (Nat.ltb_spec i (List.length sizes)) as [Hlt|Hge]; simpl; [|lia].
  destruct (Qle_bool _ _); [|lia].
  specialize (IH (S i) Hlt). lia.
Qed.

Lemma squarify_rows_length (fuel : nat) (sizes : list Q) (x y dx dy : Q) :
  (List.length sizes <= fuel)%nat ->
  List.length (Squarify.squarify_rows fuel sizes x y dx dy) =
    List.length sizes.
Proof.
  revert sizes x y dx dy.
  induction fuel as [|fuel IH]; intros sizes x y dx dy Hfuel.
  - destruct sizes; [reflexivity | simpl in Hfuel; lia].
  - destruct sizes as [|s1 [|s2 rest]].
    + reflexivity.
    + cbn [Squarify.squarify_rows]. apply layout_length.
    + cbn [Squarify.squarify_rows].
      set (sizes := s1 :: s2 :: rest) in *.
      set (i := Squarify.row_length sizes x y dx dy 1 (List.length sizes)).
      assert (Hi : (1 <= i <= List.length sizes)%nat).
      { apply row_length_bounds. subst sizes. simpl. lia. }
      destruct (Squarify.leftover (firstn i sizes) x y dx dy)
        as [[[lx ly] ldx] ldy].
      rewrite length_app, layout_length, IH.
      * rewrite length_firstn, length_skipn. lia.
      * rewrite length_skipn. lia.
Qed.

Lemma squarify_length (sizes : list Q) (x y dx dy : Q) :
  List.length (Squarify.squarify sizes x y dx dy) = List.length sizes.
Proof. unfold Squarify.squarify. now apply squarify_rows_length. Qed.

Lemma layout_engine_length (sizes : list Q) (side : Q) :
  List.length (layout_engine sizes side) = List.length sizes.
Proof.
  unfold layout_engine, Squarify.normalize_sizes.
  now rewrite squarify_length, length_map.
Qed.

Lemma layout_step_length (sizes : list Z) (dynamic_area : Z) :
  List.length (layout_step sizes dynamic_area) = List.length sizes.
Proof.
  unfold layout_step. rewrite layout_engine_length, length_map.
  destruct (sumZ sizes =? 0); [apply repeat_length | reflexivity].
Qed.

(** The rendering of any list of metrics succeeds with one tile each. *)
Lemma render_city_succeeds (files_to_render : list FileMetric) :
  exists tiles,
    render_city files_to_render = Ok tiles /\
    List.length tiles = List.length files_to_render /\
    map t_name tiles = map fm_name files_to_render.
Proof.
  unfold render_city.
  set (rects := layout_step _ _).
  assert (Hlen : List.length rects = List.length files_to_render).
  { subst rects. now rewrite layout_step_length, length_map. }
  rewrite assemble_spec.
  destruct (Nat.leb_spec (List.length files_to_render) (List.length rects));
    [|lia].
  eexists. split; [reflexivity|]. split.
  - apply paired_tiles_length. lia.
  - clearbody rects. clear H. revert rects Hlen.
    induction files_to_render as [|m rest IH]; intros [|r rects] Hlen;
      simpl in *; try discriminate; [reflexivity|].
    unfold paired_tiles in IH. rewrite IH by lia. reflexivity.
Qed.

(** ** The scheduler *)

Lemma collect_results_spec (task : SourceFile -> outcome)
      (completed : list SourceFile) (acc : list FileMetric) :
  collect_results task completed acc =
    acc ++ flat_map (kept_result task) completed.
Proof.
  revert acc. induction completed as [|f rest IH]; intros acc; simpl.
  - now rewrite app_nil_r.
  - unfold kept_result at 1.
    destruct (task f) as [[r|]|e]; rewrite IH; simpl;
      [now rewrite <- app_assoc | reflexivity | reflexivity].
Qed.

Lemma kept_result_length (task : SourceFile -> outcome) (f : SourceFile) :
  (List.length (kept_result task f) <= 1)%nat.
Proof. unfold kept_result. destruct (task f) as [[r|]|e]; simpl; lia. Qed.

Lemma collect_results_length (task : SourceFile -> outcome)
      (completed : list SourceFile) :
  (List.length (collect_results task completed []) <= List.length completed)%nat.
Proof.
  rewrite collect_results_spec. simpl.
  induction completed as [|f rest IH]; simpl; [lia|].
  rewrite length_app. pose proof (kept_result_length task f). lia.
Qed.

(** A task that returns [None] or raises leaves no trace in the output. *)
Lemma collect_results_drops (task : SourceFile -> outcome)
      (before after : list SourceFile) (f : SourceFile) :
  kept_result task f = [] ->
  collect_results task (before ++ f :: after) [] =
  collect_results task (before ++ after) [].
Proof.
  intros H. rewrite !collect_results_spec, !flat_map_app. simpl.
  now rewrite H.
Qed.

(** A task that returns a metric makes the output non-empty. *)
Lemma collect_results_keeps (task : SourceFile -> outcome)
      (completed : list SourceFile) (f : SourceFile) (m : FileMetric) :
  In f completed -> task f = Returned (Some m) ->
  In m (collect_results task completed []).
Proof.
  intros Hin Hm. rewrite collect_results_spec. simpl.
  apply in_flat_map. exists f. split; [exact Hin|].
  unfold kept_result. rewrite Hm. now left.
Qed.

(** The ways a file is not analyzable: unreadable, empty, or rejected by
    lizard. *)
Lemma analyze_file_absent (env : Env) (file_info : SourceFile) :
  read_text env (sf_local_path file_info) = None \/
  read_text env (sf_local_path file_info) = Some [] \/
  lizard_function_list env (sf_local_path file_info) = None ->
  analyze_file env file_info = None.
Proof.
  unfold analyze_file. intros [H|[H|H]]; rewrite H; try reflexivity.
  destruct (read_text env _) as [[|c content]|]; try reflexivity.
  now destruct (splitlines (c :: content)).
Qed.

(** C2: when the completion order is a permutation of the submitted
    files and at least one file is analyzable, the scheduler returns at
    most one result per input file, the run succeeds with one tile per
    result, and a file whose analysis is absent (unreadable, empty or
    rejected by lizard, all of which [analyze_file] turns into [None])
    is dropped: the results are those of the run without that file.  The
    scheduler's own handler does the same for a task that raises. *)
Theorem failing_file_is_dropped_and_run_succeeds :
  forall (env : Env) (files : list SourceFile),
    Permutation (as_completed env files) files ->
    (exists G, In G files /\ analyze_file env G <> None) ->
    (List.length (run_scheduler env files) <= List.length files)%nat /\
    (exists tiles,
        build_city_from_files env files = Ok tiles /\
        List.length tiles = List.length (run_scheduler env files) /\
        map t_name tiles = map fm_name (run_scheduler env files) /\
        (1 <= List.length tiles)%nat) /\
    (forall before F after,
        as_completed env files = before ++ F :: after ->
        analyze_file env F = None ->
        run_scheduler env files =
          collect_results (analysis_task env) (before ++ after) []) /\
    (forall F,
        read_text env (sf_local_path F) = None \/
        read_text env (sf_local_path F) = Some [] \/
        lizard_function_list env (sf_local_path F) = None ->
        analyze_file env F = None) /\
    (forall task before F after,
        task F = Returned None \/ (exists e, task F = Raised e) ->
        collect_results task (before ++ F :: after) [] =
        collect_results task (before ++ after) []).
Proof.
  intros env files Hperm (G & HG & Hok).
  assert (Hlen : (List.length (run_scheduler env files)
                  <= List.length files)%nat).
  { unfold run_scheduler.
    rewrite <- (Permutation_length Hperm). apply collect_results_length. }
  assert (Hne : exists m rest, run_scheduler env files = m :: rest).
  { destruct (analyze_file env G) as [m|] eqn:Hm; [|contradiction].
    assert (Hin : In m (run_scheduler env files)).
    { unfold run_scheduler.
      apply (collect_results_keeps _ _ G).
      - apply (Permutation_in _ (Permutation_sym Hperm) HG).
      - unfold analysis_task. now rewrite Hm. }
    destruct (run_scheduler env files) as [|m0 rest]; [contradiction|].
    now exists m0, rest. }
  split; [exact Hlen|]. split; [|split; [|split]].
  - destruct Hne as (m & rest & Hrun).
    unfold build_city_from_files.
    destruct files as [|f files']; [contradiction|].
    rewrite Hrun.
    destruct (render_city_succeeds (m :: rest)) as (tiles & Ht & Hl & Hn).
    exists tiles. repeat split; try assumption.
    rewrite Hl. simpl. lia.
  - intros before F after Horder HF. unfold run_scheduler.
    rewrite Horder. apply collect_results_drops.
    unfold kept_result, analysis_task. now rewrite HF.
  - intros F. apply analyze_file_absent.
  - intros task before F after HF. apply collect_results_drops.
    unfold kept_result. destruct HF as [->|[e ->]]; reflexivity.
Qed.

Lemma failing_file_is_dropped_and_run_succeeds_witness :
  (List.length (run_scheduler demo_env demo_files)
   <= List.length demo_files)%nat /\
  (exists tiles,
      build_city_from_files demo_env demo_files = Ok tiles /\
      List.length tiles = List.length (run_scheduler demo_env demo_files) /\
      map t_name tiles = map fm_name (run_scheduler demo_env demo_files) /\
      (1 <= List.length tiles)%nat).
Proof.
  assert (Hperm : Permutation (as_completed demo_env demo_files) demo_files).
  { apply Permutation_sym, Permutation_rev. }
  assert (Hok : exists G,
             In G demo_files /\ analyze_file demo_env G <> None).
  { exists (demo_file "a.py"). split.
    - vm_compute. right. left. reflexivity.
    - vm_compute. discriminate. }
  destruct (failing_file_is_dropped_and_run_succeeds
              demo_env demo_files Hperm Hok) as (Hlen & Hrun & _).
  split; [exact Hlen | exact Hrun].
Defined.

(** ** Fatal errors of the pipeline *)

(** After a successful parse and clone, the entry point continues with
    the enumerated files. *)
Lemma build_city_from_github_after_clone (env : Env) (repo_url : string)
      (info : string * string) (local_repo_path : string) :
  get_github_repo_info repo_url = Ok info ->
  clone_repository env repo_url (GITHUB_TOKEN env) = Ok local_repo_path ->
  build_city_from_github env repo_url =
    build_city_from_files env
      (fst (get_source_files_from_local (relpath env) local_repo_path
              MAX_FILES (os_walk env local_repo_path))).
Proof.
  intros Hinfo Hclone. unfold build_city_from_github.
  now rewrite Hinfo, Hclone.
Qed.

(** C5 (as stated, refuted): a repository whose files cannot be
    analysed ends the run with the aggregate error, a repository without
    source files with the input error, and both are instances of the one
    class [Exception]. *)
Lemma aggregate_error_has_the_class_of_input_error :
  build_city_from_github unreadable_env "https://github.com/o/r" =
    Raise aggregate_error /\
  build_city_from_github empty_env "https://github.com/o/r" =
    Raise input_error /\
  class_of aggregate_error = class_of input_error.
Proof. repeat split. Qed.

(** C5 (amended): once the repository is cloned, a run whose enumerated
    files all fail to be analysed (the scheduler's output is empty) ends
    with the exception "No analyzable files could be processed."; it is
    raised as a plain [Exception], the class also used when no file was
    enumerated, and differs from that error by its message only. *)
Theorem empty_scheduler_output_is_fatal :
  forall (env : Env) (repo_url : string) (info : string * string)
         (local_repo_path : string),
    get_github_repo_info repo_url = Ok info ->
    clone_repository env repo_url (GITHUB_TOKEN env) = Ok local_repo_path ->
    let files :=
      fst (get_source_files_from_local (relpath env) local_repo_path
             MAX_FILES (os_walk env local_repo_path)) in
    (files = [] -> build_city_from_github env repo_url = Raise input_error) /\
    (files <> [] -> run_scheduler env files = [] ->
     build_city_from_github env repo_url = Raise aggregate_error) /\
    class_of aggregate_error = class_of input_error /\
    message_of aggregate_error <> message_of input_error.
Proof.
  intros env repo_url info path Hinfo Hclone files.
  rewrite (build_city_from_github_after_clone _ _ _ _ Hinfo Hclone).
  fold files. unfold build_city_from_files.
  split; [|split; [|split]].
  - now intros ->.
  - intros Hfiles Hrun.
    destruct files as [|f rest]; [contradiction|]. now rewrite Hrun.
  - reflexivity.
  - discriminate.
Qed.

Lemma empty_scheduler_output_is_fatal_witness :
  build_city_from_github unreadable_env "https://github.com/o/r" =
    Raise aggregate_error /\
  build_city_from_github empty_env "https://github.com/o/r" =
    Raise input_error.
Proof.
  split.
  - apply (empty_scheduler_output_is_fatal unreadable_env
             "https://github.com/o/r" ("o", "r") "/tmp/city"
             eq_refl eq_refl).
    + vm_compute. discriminate.
    + reflexivity.
  - apply (empty_scheduler_output_is_fatal empty_env
             "https://github.com/o/r" ("o", "r") "/tmp/city"
             eq_refl eq_refl).
    reflexivity.
Defined.

(** ** The layout engine: areas and positions *)

Local Open Scope Q_scope.

Lemma Qsum_from (l : list Q) (a : Q) : fold_left Qplus l a == a + Qsum l.
Proof.
  unfold Qsum. revert a.
  induction l as [|b l IH]; intros a; simpl; [lra|].
  rewrite (IH (a + b)), (IH (0 + b)). lra.
Qed.

Lemma Qsum_cons (a : Q) (l : list Q) : Qsum (a :: l) == a + Qsum l.
Proof. unfold Qsum at 1. simpl. rewrite Qsum_from. lra. Qed.

Lemma Qsum_app (l1 l2 : list Q) : Qsum (l1 ++ l2) == Qsum l1 + Qsum l2.
Proof.
  induction l1 as [|a l1 IH]; simpl.
  - unfold Qsum at 2. simpl. lra.
  - rewrite !Qsum_cons, IH. lra.
Qed.

Lemma Qsum_nonneg (l : list Q) : Forall (fun v => 0 < v) l -> 0 <= Qsum l.
Proof.
  induction 1 as [|v l Hv _ IH]; [unfold Qsum; simpl; lra|].
  rewrite Qsum_cons. lra.
Qed.

Lemma Qsum_pos (l : list Q) :
  Forall (fun v => 0 < v) l -> l <> [] -> 0 < Qsum l.
Proof.
  intros Hpos Hne. destruct Hpos as [|v l Hv Hl]; [contradiction|].
  rewrite Qsum_cons. pose proof (Qsum_nonneg l Hl). lra.
Qed.

Lemma Qdiv_pos (a b : Q) : 0 < a -> 0 < b -> 0 < a / b.
Proof. intros Ha Hb. apply Qlt_shift_div_l; lra. Qed.

Lemma Qdiv_nonneg (a b : Q) : 0 <= a -> 0 < b -> 0 <= a / b.
Proof. intros Ha Hb. apply Qle_shift_div_l; lra. Qed.

(** A property of ordered pairs holds between any two positions. *)
Lemma ForallOrdPairs_nth {A : Type} (R : A -> A -> Prop) (l : list A) :
  ForallOrdPairs R l ->
  forall i j a b,
    (i < j)%nat -> nth_error l i = Some a -> nth_error l j = Some b -> R a b.
Proof.
  induction 1 as [|x l Hx _ IH]; intros i j a b Hij Ha Hb.
  - destruct i; discriminate.
  - destruct j as [|j]; [lia|]. simpl in Hb.
    destruct i as [|i]; simpl in Ha.
    + injection Ha as <-.
      rewrite Forall_forall in Hx. apply Hx.
      now apply nth_error_In in Hb.
    + apply (IH i j); [lia | assumption | assumption].
Qed.

Lemma ForallOrdPairs_app {A : Type} (R : A -> A -> Prop) (l1 l2 : list A) :
  ForallOrdPairs R l1 -> ForallOrdPairs R l2 ->
  (forall a b, In a l1 -> In b l2 -> R a b) ->
  ForallOrdPairs R (l1 ++ l2).
Proof.
  intros H1 H2 H12. induction H1 as [|x l1 Hx _ IH]; simpl; [exact H2|].
  constructor.
  - apply Forall_app. split; [exact Hx|].
    apply Forall_forall. intros b Hb. apply H12; [now left | exact Hb].
  - apply IH. intros a b Ha Hb. apply H12; [now right | exact Hb].
Qed.

Lemma overlap_sym (a b : Rect) : overlap a b -> overlap b a.
Proof. unfold overlap. tauto. Qed.

Lemma within_box (x y dx dy x' y' dx' dy' : Q) (r : Rect) :
  box_within x y dx dy x' y' dx' dy' ->
  within x y dx dy r -> within x' y' dx' dy' r.
Proof. unfold box_within, within. intros H Hr. repeat split; lra. Qed.

(** A row laid along the vertical side: every rectangle has the area of
    its value, the row fills the strip of thickness [width] and height
    [sum / width], and its rectangles are stacked without overlap. *)
Lemma stack_down_props (sizes : list Q) (x y width : Q) :
  0 < width -> Forall (fun v => 0 < v) sizes ->
  Forall2 realises (Squarify.stack_down sizes x y width) sizes /\
  Forall (within x y width (Qsum sizes / width))
         (Squarify.stack_down sizes x y width) /\
  ForallOrdPairs (fun a b => ~ overlap a b)
                 (Squarify.stack_down sizes x y width).
Proof.
  intros Hw Hpos. revert y.
  induction Hpos as [|s rest Hs Hrest IH]; intros y; simpl.
  - repeat split; constructor.
  - destruct (IH (y + s / width)) as (Hreal & Hin & Hdisj).
    pose proof (Qdiv_pos s width Hs Hw) as Hh.
    pose proof (Qdiv_nonneg (Qsum rest) width (Qsum_nonneg _ Hrest) Hw) as Hr.
    assert (Ht : Qsum (s :: rest) / width == s / width + Qsum rest / width).
    { rewrite Qsum_cons. field. lra. }
    set (hs := s / width) in *. set (hr := Qsum rest / width) in *.
    set (ht := Qsum (s :: rest) / width) in *.
    split; [|split].
    + constructor; [|exact Hreal].
      unfold realises, area. simpl. repeat split; try assumption.
      subst hs. field. lra.
    + constructor.
      * unfold within. simpl. repeat split; lra.
      * eapply Forall_impl; [|exact Hin].
        intros r Hr'. unfold within in *. repeat split; lra.
    + constructor; [|exact Hdisj].
      eapply Forall_impl; [|exact Hin].
      intros r Hr' Hov. unfold within, overlap in *. simpl in Hov. lra.
Qed.

(** The same for a row laid along the horizontal side. *)
Lemma stack_right_props (sizes : list Q) (x y height : Q) :
  0 < height -> Forall (fun v => 0 < v) sizes ->
  Forall2 realises (Squarify.stack_right sizes x y height) sizes /\
  Forall (within x y (Qsum sizes / height) height)
         (Squarify.stack_right sizes x y height) /\
  ForallOrdPairs (fun a b => ~ overlap a b)
                 (Squarify.stack_right sizes x y height).
Proof.
  intros Hh Hpos. revert x.
  induction Hpos as [|s rest Hs Hrest IH]; intros x; simpl.
  - repeat split; constructor.
  - destruct (IH (x + s / height)) as (Hreal & Hin & Hdisj).
    pose proof (Qdiv_pos s height Hs Hh) as Hw.
    pose proof (Qdiv_nonneg (Qsum rest) height (Qsum_nonneg _ Hrest) Hh)
      as Hr.
    assert (Ht : Qsum (s :: rest) / height
                 == s / height + Qsum rest / height).
    { rewrite Qsum_cons. field. lra. }
    set (ws := s / height) in *. set (wr := Qsum rest / height) in *.
    set (wt := Qsum (s :: rest) / height) in *.
    split; [|split].
    + constructor; [|exact Hreal].
      unfold realises, area. simpl. repeat split; try assumption.
      subst ws. field. lra.
    + constructor.
      * unfold within. simpl. repeat split; lra.
      * eapply Forall_impl; [|exact Hin].
        intros r Hr'. unfold within in *. repeat split; lra.
    + constructor; [|exact Hdisj].
      eapply Forall_impl; [|exact Hin].
      intros r Hr' Hov. unfold within, overlap in *. simpl in Hov. lra.
Qed.

(** One row in a free rectangle it fits in: the rectangles realise the
    values, stay in the free rectangle, do not overlap one another nor
    anything placed in the leftover rectangle, and the leftover is what
    remains of the free rectangle. *)
Lemma layout_props (current : list Q) (x y dx dy lx ly ldx ldy : Q) :
  0 < dx -> 0 < dy ->
  Forall (fun v => 0 < v) current -> current <> [] ->
  Qsum current <= dx * dy ->
  Squarify.leftover current x y dx dy = (lx, ly, ldx, ldy) ->
  Forall2 realises (Squarify.layout current x y dx dy) current /\
  Forall (within x y dx dy) (Squarify.layout current x y dx dy) /\
  ForallOrdPairs (fun a b => ~ overlap a b)
                 (Squarify.layout current x y dx dy) /\
  (forall a b,
      In a (Squarify.layout current x y dx dy) ->
      within lx ly ldx ldy b -> ~ overlap a b) /\
  box_within lx ly ldx ldy x y dx dy /\
  ldx * ldy == dx * dy - Qsum current /\
  (Qsum current < dx * dy -> 0 < ldx /\ 0 < ldy).
Proof.
  intros Hdx Hdy Hpos Hne Hfit Hleft.
  pose proof (Qsum_pos _ Hpos Hne) as Hsum.
  unfold Squarify.layout, Squarify.leftover in *.
  destruct (Qle_bool dy dx).
  - unfold Squarify.layoutrow.
    injection Hleft as <- <- <- <-.
    set (w := Qsum current / dy) in *.
    assert (Hw : 0 < w) by (now apply Qdiv_pos).
    assert (Hwdx : w <= dx) by (apply Qle_shift_div_r; lra).
    assert (Harea : w * dy == Qsum current) by (subst w; field; lra).
    assert (Hb : Qsum current / w == dy) by (subst w; field; split; lra).
    destruct (stack_down_props current x y w Hw Hpos)
      as (Hreal & Hin & Hdisj).
    set (hb := Qsum current / w) in *.
    split; [exact Hreal|]. split; [|split; [exact Hdisj|]].
    + eapply Forall_impl; [|exact Hin].
      intros r Hr. unfold within in *. repeat split; lra.
    + split; [|split; [|split]].
      * intros a b Ha Hbox Hov. rewrite Forall_forall in Hin.
        specialize (Hin a Ha). unfold within, overlap in *. lra.
      * unfold box_within. repeat split; lra.
      * lra.
      * intros Hlt. split; [|exact Hdy].
        assert (w < dx) by (apply Qlt_shift_div_r; lra). lra.
  - unfold Squarify.layoutcol.
    injection Hleft as <- <- <- <-.
    set (h := Qsum current / dx) in *.
    assert (Hh : 0 < h) by (now apply Qdiv_pos).
    assert (Hhdy : h <= dy) by (apply Qle_shift_div_r; lra).
    assert (Harea : dx * h == Qsum current) by (subst h; field; lra).
    assert (Hb : Qsum current / h == dx) by (subst h; field; split; lra).
    destruct (stack_right_props current x y h Hh Hpos)
      as (Hreal & Hin & Hdisj).
    set (wb := Qsum current / h) in *.
    split; [exact Hreal|]. split; [|split; [exact Hdisj|]].
    + eapply Forall_impl; [|exact Hin].
      intros r Hr. unfold within in *. repeat split; lra.
    + split; [|split; [|split]].
      * intros a b Ha Hbox Hov. rewrite Forall_forall in Hin.
        specialize (Hin a Ha). unfold within, overlap in *. lra.
      * unfold box_within. repeat split; lra.
      * lra.
      * intros Hlt. split; [exact Hdx|].
        assert (h < dy) by (apply Qlt_shift_div_r; lra). lra.
Qed.

(** The rectangles of a candidate row have positive extents, so the
    quotients in [aspect] have positive divisors. *)
Lemma layout_extents_positive (current : list Q) (x y dx dy : Q) :
  0 < dx -> 0 < dy ->
  Forall (fun v => 0 < v) current -> current <> [] ->
  Forall (fun r => 0 < r_dx r /\ 0 < r_dy r)
         (Squarify.layout current x y dx dy).
Proof.
  intros Hdx Hdy Hpos Hne.
  pose proof (Qsum_pos _ Hpos Hne) as Hsum.
  assert (Hreal : Forall2 realises (Squarify.layout current x y dx dy)
                          current).
  { unfold Squarify.layout, Squarify.layoutrow, Squarify.layoutcol.
    destruct (Qle_bool dy dx).
    - apply stack_down_props; [now apply Qdiv_pos | exact Hpos].
    - apply stack_right_props; [now apply Qdiv_pos | exact Hpos]. }
  clear -Hreal. induction Hreal as [|r v rs vs [_ Hext] _ IH];
    constructor; assumption.
Qed.

Lemma squarify_rows_nil (fuel : nat) (x y dx dy : Q) :
  Squarify.squarify_rows fuel [] x y dx dy = [].
Proof. now destruct fuel. Qed.

(** The recursion on rows keeps the three properties: positive values
    that sum to the area of the free rectangle are realised by
    rectangles inside it that do not overlap. *)
Lemma squarify_rows_props (fuel : nat) :
  forall (sizes : list Q) (x y dx dy : Q),
    (List.length sizes <= fuel)%nat ->
    Forall (fun v => 0 < v) sizes ->
    0 < dx -> 0 < dy ->
    Qsum sizes == dx * dy ->
    Forall2 realises (Squarify.squarify_rows fuel sizes x y dx dy) sizes /\
    Forall (within x y dx dy) (Squarify.squarify_rows fuel sizes x y dx dy) /\
    ForallOrdPairs (fun a b => ~ overlap a b)
                   (Squarify.squarify_rows fuel sizes x y dx dy).
Proof.
  induction fuel as [|fuel IH]; intros sizes x y dx dy Hfuel Hpos Hdx Hdy Hsum.
  - destruct sizes; [|simpl in Hfuel; lia].
    repeat split; constructor.
  - destruct sizes as [|s1 [|s2 rest]].
    + repeat split; constructor.
    + cbn [Squarify.squarify_rows].
      destruct (Squarify.leftover [s1] x y dx dy) as [[[lx ly] ldx] ldy] eqn:El.
      destruct (layout_props [s1] x y dx dy lx ly ldx ldy)
        as (Hreal & Hin & Hdisj & _); try assumption;
        [discriminate | lra | now repeat split].
    + cbn [Squarify.squarify_rows].
      set (sizes := s1 :: s2 :: rest) in *.
      set (i := Squarify.row_length sizes x y dx dy 1 (List.length sizes)).
      assert (Hi : (1 <= i <= List.length sizes)%nat).
      { apply row_length_bounds. subst sizes. simpl. lia. }
      clearbody i.
      pose proof (firstn_skipn i sizes) as Hsplit.
      set (current := firstn i sizes) in *.
      set (remaining := skipn i sizes) in *.
      assert (Hcur_ne : current <> []).
      { intros E. apply (f_equal (@List.length Q)) in E.
        subst current. rewrite length_firstn in E. simpl in E. lia. }
      assert (Hparts : Forall (fun v => 0 < v) current /\
                       Forall (fun v => 0 < v) remaining).
      { apply Forall_app. now rewrite Hsplit. }
      destruct Hparts as [Hcur Hrem].
      assert (Hsums : Qsum sizes == Qsum current + Qsum remaining).
      { rewrite <- Qsum_app. now rewrite Hsplit. }
      pose proof (Qsum_nonneg _ Hrem) as Hrem0.
      destruct (Squarify.leftover current x y dx dy)
        as [[[lx ly] ldx] ldy] eqn:El.
      destruct (layout_props current x y dx dy lx ly ldx ldy)
        as (Hreal & Hin & Hdisj & Hsep & Hbox & Harea & Hposl);
        try assumption; [lra|].
      destruct remaining as [|r0 rem'] eqn:Erem.
      * rewrite squarify_rows_nil, app_nil_r.
        rewrite app_nil_r in Hsplit. rewrite <- Hsplit.
        now repeat split.
      * assert (Hrem_pos : 0 < Qsum (r0 :: rem')).
        { apply Qsum_pos; [exact Hrem | discriminate]. }
        destruct Hposl as [Hldx Hldy]; [lra|].
        destruct (IH (r0 :: rem') lx ly ldx ldy)
          as (Hreal' & Hin' & Hdisj'); try assumption.
        { assert (Hl : List.length (r0 :: rem') =
                       (List.length sizes - i)%nat).
          { rewrite <- Erem. subst remaining. apply length_skipn. }
          rewrite Hl. lia. }
        { lra. }
        split; [|split].
        -- rewrite <- Hsplit. now apply Forall2_app.
        -- apply Forall_app. split; [exact Hin|].
           eapply Forall_impl; [|exact Hin'].
           intros r Hr. now apply (within_box _ _ _ _ _ _ _ _ r Hbox).
        -- apply ForallOrdPairs_app; try assumption.
           intros a b Ha Hb. apply (Hsep a b Ha).
           rewrite Forall_forall in Hin'. now apply Hin'.
Qed.

(** The rescaled values: each is its size times the constant
    [total_area / total_size]; they are positive and sum to the area. *)
Lemma Qsum_scaled (l : list Q) (c t : Q) :
  Qsum (map (fun size => size * c / t) l) == Qsum l * c / t.
Proof.
  induction l as [|s l IH]; simpl.
  - unfold Qsum. simpl. unfold Qdiv. ring.
  - rewrite !Qsum_cons, IH. unfold Qdiv. ring.
Qed.

Lemma normalize_sizes_sum (sizes : list Q) (dx dy : Q) :
  Forall (fun v => 0 < v) sizes -> sizes <> [] ->
  Qsum (Squarify.normalize_sizes sizes dx dy) == dx * dy.
Proof.
  intros Hpos Hne. pose proof (Qsum_pos _ Hpos Hne) as Ht.
  unfold Squarify.normalize_sizes. rewrite Qsum_scaled. field. lra.
Qed.

Lemma normalize_sizes_pos (sizes : list Q) (dx dy : Q) :
  Forall (fun v => 0 < v) sizes -> sizes <> [] -> 0 < dx * dy ->
  Forall (fun v => 0 < v) (Squarify.normalize_sizes sizes dx dy).
Proof.
  intros Hpos Hne Harea. pose proof (Qsum_pos _ Hpos Hne) as Ht.
  unfold Squarify.normalize_sizes. apply Forall_map.
  eapply Forall_impl; [|exact Hpos].
  intros s Hs. simpl. apply Qdiv_pos; [|exact Ht].
  now apply Qmult_lt_0_compat.
Qed.

Lemma Forall2_map_right {A B C : Type} (P : A -> C -> Prop) (f : B -> C)
      (l : list A) (l' : list B) :
  Forall2 P l (map f l') -> Forall2 (fun a b => P a (f b)) l l'.
Proof.
  revert l. induction l' as [|b l' IH]; intros l H; simpl in H.
  - inversion H. constructor.
  - inversion H as [|a c l0 l1 Hac Hrest]; subst.
    constructor; [exact Hac | now apply IH].
Qed.

Lemma realised_areas_sum (rects : list Rect) (values : list Q) :
  Forall2 realises rects values -> Qsum (map area rects) == Qsum values.
Proof.
  induction 1 as [|r v rects values [Hrv _] _ IH]; simpl; [reflexivity|].
  rewrite !Qsum_cons, IH, Hrv. reflexivity.
Qed.

Lemma disjoint_pairs_at_positions (rects : list Rect) :
  ForallOrdPairs (fun a b => ~ overlap a b) rects -> pairwise_disjoint rects.
Proof.
  intros Hfop i j a b Hij Ha Hb Hov.
  destruct (Nat.lt_total i j) as [Hlt|[Heq|Hgt]]; [|contradiction|].
  - exact (ForallOrdPairs_nth _ _ Hfop i j a b Hlt Ha Hb Hov).
  - exact (ForallOrdPairs_nth _ _ Hfop j i b a Hgt Hb Ha (overlap_sym _ _ Hov)).
Qed.

(** On positive integer sizes the guard on a zero sum is not taken, and
    the layout step is the engine on the same numbers. *)
Lemma layout_step_on_positive_sizes (sizes : list Z) (dynamic_area : Z) :
  sizes <> [] -> Forall (fun s => (0 < s)%Z) sizes ->
  layout_step sizes dynamic_area =
    layout_engine (map inject_Z sizes) (inject_Z dynamic_area).
Proof.
  intros Hne Hpos. unfold layout_step.
  assert (Hsum : (0 < sumZ sizes)%Z).
  { destruct Hpos as [|s rest Hs Hrest]; [contradiction|].
    rewrite sumZ_cons.
    assert (0 <= sumZ rest)%Z.
    { apply sumZ_nonneg. eapply Forall_impl; [|exact Hrest].
      simpl. intros; lia. }
    lia. }
  destruct (Z.eqb_spec (sumZ sizes) 0); [lia | reflexivity].
Qed.

Lemma realised_extents_positive (rects : list Rect) (values : list Q) :
  Forall2 realises rects values ->
  Forall (fun r => 0 < r_dx r /\ 0 < r_dy r) rects.
Proof.
  induction 1 as [|r v rects values [_ Hext] _ IH]; constructor; assumption.
Qed.

(** C1: for a non-empty list of positive sizes and a square of positive
    side, the layout (rescaling, then squarified rows, in exact
    arithmetic) returns one rectangle per size; every rectangle has a
    positive width and a positive depth; the rectangle of index [i] has
    area [sizes[i]] times the constant [side^2 / sum sizes]; the areas
    are non-negative and sum to [side^2]; no two rectangles overlap, and
    all lie in the square.  On the positive integer sizes of the
    pipeline the layout step is this layout. *)
Theorem layout_is_proportional_tiling :
  forall (sizes : list Q) (side : Q),
    sizes <> [] ->
    Forall (fun s => 0 < s) sizes ->
    0 < side ->
    let rects := layout_engine sizes side in
    List.length rects = List.length sizes /\
    Forall (fun r => 0 < r_dx r /\ 0 < r_dy r) rects /\
    Forall (fun r => 0 <= area r) rects /\
    Qsum (map area rects) == side * side /\
    pairwise_disjoint rects /\
    Forall2 (fun r s => area r == s * (side * side / Qsum sizes))
            rects sizes /\
    Forall (within 0 0 side side) rects /\
    (forall (int_sizes : list Z) (dynamic_area : Z),
        sizes = map inject_Z int_sizes -> side = inject_Z dynamic_area ->
        layout_step int_sizes dynamic_area = rects).
Proof.
  intros sizes side Hne Hpos Hside rects.
  assert (Harea : 0 < side * side) by (now apply Qmult_lt_0_compat).
  pose proof (normalize_sizes_pos sizes side side Hpos Hne Harea) as Hvpos.
  pose proof (normalize_sizes_sum sizes side side Hpos Hne) as Hvsum.
  assert (Hprops :
            Forall2 realises rects (Squarify.normalize_sizes sizes side side) /\
            Forall (within 0 0 side side) rects /\
            ForallOrdPairs (fun a b => ~ overlap a b) rects).
  { subst rects. unfold layout_engine, Squarify.squarify.
    apply squarify_rows_props; try assumption. lia. }
  destruct Hprops as (Hreal & Hin & Hdisj).
  split; [apply layout_engine_length|].
  split; [exact (realised_extents_positive _ _ Hreal)|].
  split; [|split; [|split; [|split; [|split]]]].
  - clear -Hreal Hvpos. induction Hreal as [|r v rs vs [Hrv _] _ IH];
      constructor.
    + inversion Hvpos; subst. rewrite Hrv. lra.
    + apply IH. now inversion Hvpos.
  - rewrite (realised_areas_sum _ _ Hreal). exact Hvsum.
  - now apply disjoint_pairs_at_positions.
  - unfold Squarify.normalize_sizes in Hreal.
    apply Forall2_map_right in Hreal.
    eapply Forall2_impl; [|exact Hreal].
    intros r s [Hrs _]. simpl in Hrs. rewrite Hrs.
    unfold Qdiv. ring.
  - exact Hin.
  - intros int_sizes dynamic_area -> ->.
    subst rects. apply layout_step_on_positive_sizes.
    + destruct int_sizes; [now contradiction Hne | discriminate].
    + clear -Hpos. induction int_sizes as [|s rest IH]; constructor.
      * inversion Hpos as [|q qs Hs Hrest]; subst.
        rewrite Zlt_Qlt. exact Hs.
      * apply IH. now inversion Hpos.
Qed.

Lemma layout_is_proportional_tiling_witness :
  let rects := layout_step [10; 20; 30; 40]%Z 10 in
  List.length rects = 4%nat /\
  Forall (fun r => 0 < r_dx r /\ 0 < r_dy r) rects /\
  Qsum (map area rects) == 10 * 10 /\
  pairwise_disjoint rects.
Proof.
  assert (Hne : map inject_Z [10; 20; 30; 40]%Z <> []) by discriminate.
  assert (Hpos : Forall (fun s => 0 < s) (map inject_Z [10; 20; 30; 40]%Z)).
  { simpl. repeat constructor. }
  assert (Hside : 0 < inject_Z 10) by reflexivity.
  destruct (layout_is_proportional_tiling
              (map inject_Z [10; 20; 30; 40]%Z) (inject_Z 10) Hne Hpos Hside)
    as (Hlen & Hext & _ & Hsum & Hdisj & _ & _ & Hstep).
  rewrite (Hstep [10; 20; 30; 40]%Z 10%Z eq_refl eq_refl).
  split; [exact Hlen|]. split; [exact Hext|].
  split; [exact Hsum | exact Hdisj].
Defined.

(** The two layout scenarios of the specification: sizes 10, 20, 30, 40
    in a square of side 10, and a single file in a square of side 8. *)
Example layout_of_four_files :
  map (fun r => (Qred (r_x r), Qred (r_y r), Qred (r_dx r), Qred (r_dy r)))
      (layout_step [10; 20; 30; 40]%Z 10) =
    [(0, 0, 3, 10 # 3); (0, 10 # 3, 3, 20 # 3);
     (3, 0, 7, 30 # 7); (3, 30 # 7, 7, 40 # 7)] /\
  map (fun r => Qred (area r)) (layout_step [10; 20; 30; 40]%Z 10) =
    [10; 20; 30; 40].
Proof. split; vm_compute; reflexivity. Qed.

Example layout_of_single_file :
  map (fun r => (Qred (r_x r), Qred (r_y r), Qred (r_dx r), Qred (r_dy r)))
      (layout_step [5]%Z 8) = [(0, 0, 8, 8)].
Proof. vm_compute. reflexivity. Qed.

Local Close Scope Q_scope.

(* ===================================================================== *)
(** * Further properties of the code *)

(** ** More on strings *)

Lemma string_app_assoc (a b c : string) :
  ((a ++ b) ++ c)%string = (a ++ b ++ c)%string.
Proof. induction a as [|x a IH]; simpl; [reflexivity | now rewrite IH]. Qed.

Lemma string_app_nil_r (a : string) : (a ++ EmptyString)%string = a.
Proof. induction a as [|x a IH]; simpl; [reflexivity | now rewrite IH]. Qed.

Lemma string_length_app (a b : string) :
  String.length (a ++ b) = (String.length a + String.length b)%nat.
Proof. induction a as [|x a IH]; simpl; [reflexivity | now rewrite IH]. Qed.

Lemma drop_app (a b : string) : PyStr.drop (String.length a) (a ++ b) = b.
Proof. induction a as [|x a IH]; simpl; [now destruct b | exact IH]. Qed.

Lemma take_app (a b : string) : PyStr.take (String.length a) (a ++ b) = a.
Proof. induction a as [|x a IH]; simpl; [now destruct b | now rewrite IH]. Qed.

Lemma take_drop (n : nat) (s : string) :
  (PyStr.take n s ++ PyStr.drop n s)%string = s.
Proof.
  revert s. induction n as [|n IH]; intros [|x s]; simpl; try reflexivity.
  now rewrite IH.
Qed.

Lemma drop_length (n : nat) (s : string) :
  (n <= String.length s)%nat ->
  String.length (PyStr.drop n s) = (String.length s - n)%nat.
Proof.
  revert s. induction n as [|n IH]; intros [|x s] H; simpl in *;
    try reflexivity; try lia.
  apply IH. lia.
Qed.

(** [endswith] decides whether the string is some stem followed by the
    suffix. *)
Lemma endswith_app (stem p : string) : PyStr.endswith (stem ++ p) p = true.
Proof.
  unfold PyStr.endswith. rewrite string_length_app.
  replace (String.length stem + String.length p - String.length p)%nat
    with (String.length stem) by lia.
  rewrite drop_app, String.eqb_refl.
  rewrite andb_true_r. apply Nat.leb_le. lia.
Qed.

Lemma endswith_iff (s p : string) :
  PyStr.endswith s p = true <-> exists stem, s = (stem ++ p)%string.
Proof.
  split.
  - unfold PyStr.endswith. intros H.
    apply andb_true_iff in H as [_ H]. apply String.eqb_eq in H.
    exists (PyStr.take (String.length s - String.length p) s).
    pose proof (take_drop (String.length s - String.length p) s) as E.
    rewrite H in E. now symmetry.
  - intros [stem ->]. apply endswith_app.
Qed.

Lemma has_char_app (c : ascii) (a b : string) :
  PyStr.has_char c (a ++ b) = PyStr.has_char c a || PyStr.has_char c b.
Proof.
  induction a as [|x a IH]; simpl; [reflexivity|].
  now rewrite IH, orb_assoc.
Qed.

Lemma startswith_has_char (c : ascii) (s p : string) :
  PyStr.startswith s p = true ->
  PyStr.has_char c p = true -> PyStr.has_char c s = true.
Proof.
  intros Hsw Hc. destruct (startswith_inv _ _ Hsw) as [rest ->].
  now rewrite has_char_app, Hc.
Qed.

(** A string without one of the characters of [old] has no occurrence of
    [old], so [replace] leaves it as it is. *)
Lemma remove_all_absent (c : ascii) (old s : string) :
  PyStr.has_char c old = true -> PyStr.has_char c s = false ->
  PyStr.remove_all old s = s.
Proof.
  intros Hold. unfold PyStr.remove_all.
  induction s as [|a s IH]; intros Hs; [reflexivity|].
  cbn [PyStr.remove_from].
  destruct (PyStr.startswith (String a s) old) eqn:Hsw.
  - pose proof (startswith_has_char c _ _ Hsw Hold). congruence.
  - simpl in Hs. apply orb_false_iff in Hs as [_ Hs]. now rewrite IH.
Qed.

(** The characters of a matched occurrence are dropped, then the scan
    resumes. *)
Lemma remove_from_skip (old a rest : string) :
  PyStr.remove_from old (String.length a) (a ++ rest) =
  PyStr.remove_from old O rest.
Proof.
  induction a as [|x a IH]; simpl; [reflexivity | exact IH].
Qed.

Lemma remove_all_prefix (x : ascii) (old rest : string) :
  PyStr.remove_all (String x old) (String x old ++ rest) =
  PyStr.remove_all (String x old) rest.
Proof.
  unfold PyStr.remove_all.
  change (String x old ++ rest)%string with (String x (old ++ rest)).
  cbn [PyStr.remove_from].
  change (String x (old ++ rest)) with (String x old ++ rest)%string.
  rewrite startswith_app.
  replace (String.length (String x old) - 1)%nat with (String.length old)
    by (simpl; lia).
  apply remove_from_skip.
Qed.

Lemma rstrip_absent (c : ascii) (s : string) :
  PyStr.has_char c s = false -> PyStr.rstrip c s = s.
Proof.
  induction s as [|a s IH]; simpl; intros H; [reflexivity|].
  apply orb_false_iff in H as [Hac Hs]. rewrite (IH Hs).
  destruct s; [now rewrite Hac | reflexivity].
Qed.

Lemma rstrip_app_fixed (c : ascii) (x r : string) :
  r <> EmptyString -> PyStr.rstrip c r = r ->
  PyStr.rstrip c (x ++ r) = (x ++ r)%string.
Proof.
  intros Hne Hr. induction x as [|a x IH]; simpl; [exact Hr|].
  rewrite IH. destruct (x ++ r)%string eqn:E; [|reflexivity].
  destruct x; simpl in E; [contradiction | discriminate].
Qed.

(** One more trailing separator changes nothing. *)
Lemma rstrip_app_char (c : ascii) (s : string) :
  PyStr.rstrip c (s ++ String c EmptyString) = PyStr.rstrip c s.
Proof.
  induction s as [|a s IH]; simpl.
  - now rewrite Ascii.eqb_refl.
  - now rewrite IH.
Qed.

Lemma split_components_free (c : ascii) (s : string) :
  Forall (fun part => PyStr.has_char c part = false) (PyStr.split c s).
Proof.
  induction s as [|a s IH]; simpl.
  - repeat constructor.
  - destruct (Ascii.eqb a c) eqn:Hac.
    + constructor; [reflexivity | exact IH].
    + destruct (PyStr.split c s) as [|h t].
      * repeat constructor. simpl. now rewrite Hac.
      * inversion IH as [|? ? Hh Ht]; subst.
        constructor; [simpl; now rewrite Hac, Hh | exact Ht].
Qed.

Lemma split_first (c : ascii) (a rest : string) :
  PyStr.has_char c a = false ->
  PyStr.split c (a ++ String c rest) = a :: PyStr.split c rest.
Proof.
  induction a as [|x a IH]; simpl; intros H.
  - now rewrite Ascii.eqb_refl.
  - apply orb_false_iff in H as [Hxc Ha]. now rewrite Hxc, (IH Ha).
Qed.

Lemma string_app_eq_app (x y stem p : string) :
  (x ++ y)%string = (stem ++ p)%string ->
  (exists z, y = (z ++ p)%string /\ stem = (x ++ z)%string) \/
  (exists z, p = (z ++ y)%string /\ x = (stem ++ z)%string).
Proof.
  revert stem. induction x as [|a x IH]; intros stem H; simpl in H.
  - left. now exists stem.
  - destruct stem as [|b stem]; simpl in H.
    + right. now exists (String a x).
    + injection H as <- H.
      destruct (IH _ H) as [(z & -> & ->)|(z & -> & ->)].
      * left. now exists z.
      * right. now exists z.
Qed.

(** After a separator, a suffix without the separator is a suffix of the
    last component. *)
Lemma endswith_after_separator (c : ascii) (x r p : string) :
  PyStr.has_char c p = false -> p <> EmptyString ->
  PyStr.endswith (x ++ String c r) p = true -> PyStr.endswith r p = true.
Proof.
  intros Hp Hne H. apply endswith_iff in H as [stem H].
  apply string_app_eq_app in H as [(z & Hz & _)|(z & Hz & _)].
  - destruct z as [|a z]; simpl in Hz.
    + subst p. simpl in Hp. now rewrite Ascii.eqb_refl in Hp.
    + injection Hz as _ ->. apply endswith_app.
  - subst p. rewrite has_char_app in Hp. simpl in Hp.
    rewrite Ascii.eqb_refl in Hp. simpl in Hp.
    now rewrite orb_true_r in Hp.
Qed.

(** ** More on the URL parser *)

(** X1: trailing slashes do not change the parse. *)
Theorem trailing_slash_is_ignored :
  forall url : string,
    get_github_repo_info (url ++ "/")%string = get_github_repo_info url.
Proof.
  intros url. unfold get_github_repo_info, strip_repo_url.
  now rewrite rstrip_app_char.
Qed.

(** The normal form of [owner/repo] behind a GitHub prefix. *)
Lemma strip_repo_url_prefixed (prefix owner repo : string) :
  prefix = "https://github.com/" \/ prefix = "git@github.com:" ->
  PyStr.has_char ":" owner = false -> PyStr.has_char ":" repo = false ->
  PyStr.has_char "/" repo = false -> repo <> EmptyString ->
  strip_repo_url (prefix ++ owner ++ "/" ++ repo)%string =
    if PyStr.endswith repo ".git"
    then PyStr.take (String.length (owner ++ "/" ++ repo)%string - 4)
                    (owner ++ "/" ++ repo)%string
    else (owner ++ "/" ++ repo)%string.
Proof.
  intros Hprefix Ho Hr Hslash Hne.
  set (rest := (owner ++ "/" ++ repo)%string).
  assert (Hcolon : PyStr.has_char ":" rest = false).
  { subst rest. rewrite !has_char_app, Ho, Hr. reflexivity. }
  assert (Hstrip : PyStr.rstrip "/" (prefix ++ rest) = (prefix ++ rest)%string).
  { subst rest. rewrite <- !string_app_assoc.
    apply rstrip_app_fixed; [exact Hne | now apply rstrip_absent]. }
  assert (Hssh : PyStr.startswith rest "git@github.com:" = false).
  { destruct (PyStr.startswith rest "git@github.com:") eqn:E;
      [|reflexivity].
    apply (startswith_has_char ":") in E; [congruence | reflexivity]. }
  assert (Hend : PyStr.endswith rest ".git" = PyStr.endswith repo ".git").
  { destruct (PyStr.endswith repo ".git") eqn:E.
    - apply endswith_iff in E as [stem ->]. subst rest.
      rewrite <- !string_app_assoc. apply endswith_app.
    - destruct (PyStr.endswith rest ".git") eqn:E'; [|reflexivity].
      subst rest. change ("/" ++ repo)%string with (String "/" repo) in E'.
      apply endswith_after_separator in E';
        [congruence | reflexivity | discriminate]. }
  unfold strip_repo_url. rewrite Hstrip.
  destruct Hprefix as [-> | ->].
  - rewrite startswith_app, remove_all_prefix.
    rewrite (remove_all_absent ":") by (reflexivity || exact Hcolon).
    now rewrite Hssh, Hend.
  - change (PyStr.startswith ("git@github.com:" ++ rest)
              "https://github.com/") with false.
    cbv iota.
    rewrite startswith_app, remove_all_prefix.
    rewrite (remove_all_absent ":") by (reflexivity || exact Hcolon).
    now rewrite Hend.
Qed.

(** X2: the usual forms of a repository address, HTTPS or SSH, with or
    without the [.git] ending, are parsed into owner and repository. *)
Theorem github_urls_parse_to_owner_and_repo :
  forall owner repo : string,
    PyStr.has_char "/" owner = false -> PyStr.has_char ":" owner = false ->
    PyStr.has_char "/" repo = false -> PyStr.has_char ":" repo = false ->
    get_github_repo_info
      ("https://github.com/" ++ owner ++ "/" ++ repo ++ ".git")%string =
      Ok (owner, repo) /\
    get_github_repo_info
      ("git@github.com:" ++ owner ++ "/" ++ repo ++ ".git")%string =
      Ok (owner, repo) /\
    (repo <> EmptyString -> PyStr.endswith repo ".git" = false ->
     get_github_repo_info ("https://github.com/" ++ owner ++ "/" ++ repo)%string
       = Ok (owner, repo) /\
     get_github_repo_info ("git@github.com:" ++ owner ++ "/" ++ repo)%string
       = Ok (owner, repo)).
Proof.
  intros owner repo Hos Hoc Hrs Hrc.
  assert (Hsplit : PyStr.split "/" (owner ++ "/" ++ repo)%string
                   = [owner; repo]).
  { change ("/" ++ repo)%string with (String "/" repo).
    rewrite split_first by exact Hos.
    now rewrite split_no_separator. }
  assert (Hgit : forall prefix,
             prefix = "https://github.com/" \/ prefix = "git@github.com:" ->
             get_github_repo_info (prefix ++ owner ++ "/" ++ repo ++ ".git")%string
             = Ok (owner, repo)).
  { intros prefix Hprefix. unfold get_github_repo_info.
    pose proof (strip_repo_url_prefixed prefix owner (repo ++ ".git")%string
                  Hprefix Hoc) as H.
    rewrite endswith_app in H. rewrite H.
    - rewrite <- !string_app_assoc.
      rewrite string_length_app. simpl (String.length ".git").
      replace (String.length ((owner ++ "/") ++ repo)%string + 4 - 4)%nat
        with (String.length ((owner ++ "/") ++ repo)%string) by lia.
      rewrite take_app, string_app_assoc, Hsplit. reflexivity.
    - rewrite has_char_app, Hrc. reflexivity.
    - rewrite has_char_app, Hrs. reflexivity.
    - destruct repo; discriminate. }
  split; [apply Hgit; now left|]. split; [apply Hgit; now right|].
  intros Hne Hend.
  assert (Hplain : forall prefix,
             prefix = "https://github.com/" \/ prefix = "git@github.com:" ->
             get_github_repo_info (prefix ++ owner ++ "/" ++ repo)%string
             = Ok (owner, repo)).
  { intros prefix Hprefix. unfold get_github_repo_info.
    rewrite (strip_repo_url_prefixed prefix owner repo Hprefix Hoc Hrc Hrs Hne).
    now rewrite Hend, Hsplit. }
  split; apply Hplain; [now left | now right].
Qed.

Lemma github_urls_parse_to_owner_and_repo_witness :
  get_github_repo_info "https://github.com/rocq-prover/rocq.git" =
    Ok ("rocq-prover", "rocq") /\
  get_github_repo_info "git@github.com:rocq-prover/rocq" =
    Ok ("rocq-prover", "rocq").
Proof.
  destruct (github_urls_parse_to_owner_and_repo "rocq-prover" "rocq"
              eq_refl eq_refl eq_refl eq_refl) as (Hhttps & _ & Hplain).
  split; [exact Hhttps|].
  apply Hplain; [discriminate | reflexivity].
Defined.

(** X3: the two components returned never contain a slash. *)
Theorem parsed_components_have_no_slash :
  forall (url owner repo : string),
    get_github_repo_info url = Ok (owner, repo) ->
    PyStr.has_char "/" owner = false /\ PyStr.has_char "/" repo = false.
Proof.
  intros url owner repo. unfold get_github_repo_info.
  pose proof (split_components_free "/" (strip_repo_url url)) as Hfree.
  destruct (PyStr.split "/" (strip_repo_url url)) as [|p0 [|p1 rest]];
    try discriminate.
  intros H. injection H as <- <-.
  inversion Hfree as [|? ? H0 Hrest]; subst.
  inversion Hrest as [|? ? H1 _]; subst.
  now split.
Qed.

Lemma parsed_components_have_no_slash_witness :
  PyStr.has_char "/" "o" = false /\ PyStr.has_char "/" "r" = false.
Proof.
  apply (parsed_components_have_no_slash "https://github.com/o/r/tree/main").
  reflexivity.
Defined.

(** ** More on the file enumerator *)

Lemma is_supported_iff (file : string) :
  is_supported file = true <->
  exists stem ext, In ext SUPPORTED_EXTENSIONS /\ file = (stem ++ ext)%string.
Proof.
  unfold is_supported. rewrite existsb_exists. split.
  - intros (ext & Hin & Hend). apply endswith_iff in Hend as [stem ->].
    now exists stem, ext.
  - intros (stem & ext & Hin & ->). exists ext. split; [exact Hin|].
    apply endswith_app.
Qed.

Lemma path_join_ends_with_file (root file : string) :
  PyStr.endswith (path_join root file) file = true.
Proof.
  unfold path_join.
  destruct (PyStr.startswith file "/").
  - apply (endswith_app EmptyString).
  - destruct (String.eqb root EmptyString || PyStr.endswith root "/").
    + apply endswith_app.
    + rewrite <- string_app_assoc. apply endswith_app.
Qed.

Lemma scan_files_origin (relpath : string -> string -> string)
      (local_repo_path : string) (max_files : Z) (root : string)
      (files : list string) (acc : list SourceFile) :
  match scan_files relpath local_repo_path max_files root files acc with
  | Continue found | Return found =>
      forall sf, In sf found ->
        In sf acc \/
        exists file, In file files /\ is_supported file = true /\
                     sf = make_source_file relpath local_repo_path root file
  end.
Proof.
  revert acc. induction files as [|file rest IH]; intros acc.
  - simpl. intros sf H. now left.
  - cbn [scan_files].
    set (acc' := if is_supported file
                 then acc ++ [make_source_file relpath local_repo_path
                                root file]
                 else acc).
    assert (Hacc' : forall sf, In sf acc' ->
              In sf acc \/
              exists f, In f (file :: rest) /\ is_supported f = true /\
                        sf = make_source_file relpath local_repo_path root f).
    { intros sf H. subst acc'.
      destruct (is_supported file) eqn:Hsup; [|now left].
      apply in_app_or in H as [H|[<-|[]]]; [now left|].
      right. exists file. repeat split; [now left | exact Hsup]. }
    destruct (Z.of_nat (List.length acc') >=? max_files); [exact Hacc'|].
    specialize (IH acc').
    destruct (scan_files relpath local_repo_path max_files root rest acc');
      intros sf H; destruct (IH sf H) as [Hin|(f & Hf & Hsup & ->)];
      try (now apply Hacc');
      right; exists f; repeat split; try assumption; now right.
Qed.

Lemma scan_walk_origin (relpath : string -> string -> string)
      (local_repo_path : string) (max_files : Z)
      (walk : list walk_entry) (acc : list SourceFile) (sf : SourceFile) :
  In sf (fst (scan_walk relpath local_repo_path max_files walk acc)) ->
  In sf acc \/
  exists e file,
    In e walk /\ in_git_dir (entry_root e) = false /\
    In file (entry_files e) /\ is_supported file = true /\
    sf = make_source_file relpath local_repo_path (entry_root e) file.
Proof.
  revert acc. induction walk as [|e rest IH]; intros acc H; simpl in H.
  - now left.
  - destruct (in_git_dir (entry_root e)) eqn:Hgit.
    + destruct (IH _ H) as [Hin|(e' & f & He & Hrest)]; [now left|].
      right. exists e', f. split; [now right | exact Hrest].
    + pose proof (scan_files_origin relpath local_repo_path max_files
                    (entry_root e) (entry_files e) acc) as Hfiles.
      destruct (scan_files relpath local_repo_path max_files
                  (entry_root e) (entry_files e) acc) as [found|found].
      * destruct (IH _ H) as [Hin|(e' & f & He & Hrest)].
        -- destruct (Hfiles _ Hin) as [Hacc|(f & Hf & Hsup & ->)];
             [now left|].
           right. exists e, f. repeat split; try assumption. now left.
        -- right. exists e', f. split; [now right | exact Hrest].
      * simpl in H.
        destruct (Hfiles _ H) as [Hacc|(f & Hf & Hsup & ->)]; [now left|].
        right. exists e, f. repeat split; try assumption. now left.
Qed.

(** X4: whatever the limit, every record returned was built from a file
    of a walked directory whose path is free of [.git]; the file name
    ends with one of the listed extensions, the record's name is that
    file name, and its local path is the directory joined with the
    name, so it ends with the name. *)
Theorem enumerated_records_come_from_supported_files :
  forall (relpath : string -> string -> string) (local_repo_path : string)
         (max_files : Z) (walk : list walk_entry) (sf : SourceFile),
    In sf (fst (get_source_files_from_local relpath local_repo_path
                  max_files walk)) ->
    exists e stem ext,
      In e walk /\ in_git_dir (entry_root e) = false /\
      In ext SUPPORTED_EXTENSIONS /\
      In (stem ++ ext)%string (entry_files e) /\
      sf_name sf = (stem ++ ext)%string /\
      sf_local_path sf = path_join (entry_root e) (sf_name sf) /\
      sf_path sf = relpath (sf_local_path sf) local_repo_path /\
      PyStr.endswith (sf_local_path sf) (sf_name sf) = true.
Proof.
  intros relpath path max_files walk sf H.
  unfold get_source_files_from_local in H.
  apply scan_walk_origin in H as [[]|(e & file & He & Hgit & Hf & Hsup & ->)].
  apply is_supported_iff in Hsup as (stem & ext & Hext & ->).
  exists e, stem, ext. cbn [make_source_file sf_name sf_local_path sf_path].
  repeat split; try assumption; try reflexivity.
  apply path_join_ends_with_file.
Qed.

Lemma enumerated_records_come_from_supported_files_witness :
  exists e stem ext,
    In e demo_walk /\ in_git_dir (entry_root e) = false /\
    In ext SUPPORTED_EXTENSIONS /\
    In (stem ++ ext)%string (entry_files e) /\
    "c.js" = (stem ++ ext)%string.
Proof.
  destruct (enumerated_records_come_from_supported_files
              (relpath demo_env) "/tmp/city" MAX_FILES demo_walk
              (demo_file "c.js"))
    as (e & stem & ext & He & Hgit & Hext & Hin & Hname & _).
  - vm_compute. do 3 right. left. reflexivity.
  - exists e, stem, ext. repeat split; assumption.
Defined.

Lemma contains_extends (s t p : string) :
  PyStr.contains s p = true -> PyStr.startswith t s = true ->
  PyStr.contains t p = true.
Proof.
  intros Hc Hs. apply contains_iff in Hc as (pre & post & ->).
  apply startswith_inv in Hs as [rest ->].
  apply contains_iff. exists pre, (post ++ rest)%string.
  now rewrite !string_app_assoc.
Qed.

(** X5: the filter also applies to the repository directory itself.
    When the path handed to the enumerator has [.git] in it, every
    directory of the walk (all of which start with that path) is
    skipped: nothing is returned and no warning is printed. *)
Theorem repository_path_with_git_yields_nothing :
  forall (relpath : string -> string -> string) (local_repo_path : string)
         (max_files : Z) (walk : list walk_entry),
    in_git_dir local_repo_path = true ->
    Forall (fun e => PyStr.startswith (entry_root e) local_repo_path = true)
           walk ->
    get_source_files_from_local relpath local_repo_path max_files walk =
      ([], false).
Proof.
  intros relpath path max_files walk Hgit Hwalk.
  unfold get_source_files_from_local.
  induction Hwalk as [|e rest He _ IH]; simpl; [reflexivity|].
  unfold in_git_dir in *. now rewrite (contains_extends _ _ _ Hgit He).
Qed.

Lemma repository_path_with_git_yields_nothing_witness :
  get_source_files_from_local (relpath demo_env) "/srv/mirror.git" MAX_FILES
    [("/srv/mirror.git", ["src"], ["setup.py"]);
     ("/srv/mirror.git/src", [], ["a.py"])] = ([], false).
Proof.
  apply repository_path_with_git_yields_nothing.
  - reflexivity.
  - repeat constructor.
Defined.

(** ** More on the analyzer *)

(** The lines, put end to end, are the content without its boundary
    characters. *)
Lemma splitlines_concat (s : text) :
  List.concat (splitlines s) = filter (fun c => negb (is_line_boundary c)) s.
Proof.
  remember (List.length s) as n eqn:Hn.
  revert s Hn. induction n as [n IH] using lt_wf_ind. intros s Hn.
  destruct s as [|c s']; [reflexivity|].
  assert (Hs' : List.concat (splitlines s')
                = filter (fun c => negb (is_line_boundary c)) s').
  { apply (IH (List.length s')); [subst n; simpl; lia | reflexivity]. }
  cbn [splitlines filter].
  destruct (is_line_boundary c) eqn:Hc; cbn [negb].
  - destruct s' as [|next s'']; [reflexivity|].
    destruct (is_crlf c next) eqn:Hcrlf; [|exact Hs'].
    cbn [List.concat app filter].
    assert (Hnext : is_line_boundary next = true).
    { unfold is_crlf in Hcrlf. apply andb_true_iff in Hcrlf as [_ Hnx].
      apply N.eqb_eq in Hnx. now subst next. }
    rewrite Hnext. cbn [negb].
    apply (IH (List.length s'')); [subst n; simpl; lia | reflexivity].
  - rewrite <- Hs'. now destruct (splitlines s').
Qed.

Lemma splitlines_length_le (s : text) :
  (List.length (splitlines s) <= List.length s)%nat.
Proof.
  remember (List.length s) as n eqn:Hn.
  revert s Hn. induction n as [n IH] using lt_wf_ind. intros s Hn.
  destruct s as [|c s']; [simpl; lia|].
  assert (Hs' : (List.length (splitlines s') <= List.length s')%nat).
  { apply (IH (List.length s')); [subst n; simpl; lia | reflexivity]. }
  subst n. cbn [splitlines].
  destruct (is_line_boundary c).
  - destruct s' as [|next s'']; [simpl; lia|].
    destruct (is_crlf c next); [|simpl in *; lia].
    assert (List.length (splitlines s'') <= List.length s'')%nat.
    { apply (IH (List.length s'')); [simpl; lia | reflexivity]. }
    simpl. lia.
  - destruct (splitlines s'); simpl in *; lia.
Qed.

(** X6: [str.splitlines] as the analyzer uses it: no line contains a
    line boundary, and the lines put end to end are the content with
    the boundary characters taken out, so nothing else is lost. *)
Theorem splitlines_keeps_all_other_characters :
  forall content : text,
    List.concat (splitlines content) =
      filter (fun c => negb (is_line_boundary c)) content /\
    Forall (Forall (fun c => is_line_boundary c = false))
           (splitlines content).
Proof.
  intros content. split; [apply splitlines_concat|].
  apply Forall_forall. intros line Hline.
  apply Forall_forall. intros c Hc.
  assert (Hin : In c (List.concat (splitlines content))).
  { apply in_concat. now exists line. }
  rewrite splitlines_concat in Hin. apply filter_In in Hin as [_ Hnb].
  now apply negb_true_iff in Hnb.
Qed.

(** X7: [analyze_file] returns [None] in exactly three situations: the
    file cannot be read, it is empty, or lizard fails on it.  The test
    on an empty list of lines never fires for a non-empty content. *)
Theorem analysis_is_absent_exactly_when :
  forall (env : Env) (file_info : SourceFile),
    analyze_file env file_info = None <->
    (read_text env (sf_local_path file_info) = None \/
     read_text env (sf_local_path file_info) = Some [] \/
     lizard_function_list env (sf_local_path file_info) = None).
Proof.
  intros env file_info. split; [|apply analyze_file_absent].
  unfold analyze_file.
  destruct (read_text env _) as [[|c content]|]; [tauto | | tauto].
  pose proof (splitlines_nonempty c content) as Hne.
  destruct (splitlines (c :: content)); [contradiction|].
  destruct (lizard_function_list env _); [discriminate | tauto].
Qed.

Lemma analysis_is_absent_exactly_when_witness :
  analyze_file demo_env (demo_file "b.py") = None /\
  analyze_file demo_env (demo_file "c.js") = None.
Proof.
  split.
  - apply (analysis_is_absent_exactly_when demo_env (demo_file "b.py")).
    right. left. reflexivity.
  - apply (analysis_is_absent_exactly_when demo_env (demo_file "c.js")).
    left. reflexivity.
Defined.

(** X8: the metric of an analysed file carries the file's name, a churn
    of 1, and a size between 1 and the number of characters read. *)
Theorem metric_fields_of_analysed_file :
  forall (env : Env) (file_info : SourceFile) (m : FileMetric),
    analyze_file env file_info = Some m ->
    exists content : text,
      read_text env (sf_local_path file_info) = Some content /\
      fm_name m = sf_name file_info /\
      fm_churn m = 1 /\
      1 <= fm_size m <= Z.of_nat (List.length content).
Proof.
  intros env file_info m Hm.
  destruct (analyze_file_inv _ _ _ Hm) as (c & content & fl & Hread & Hliz).
  rewrite (analyze_file_success _ _ _ _ _ Hread Hliz) in Hm.
  injection Hm as <-. exists (c :: content).
  split; [exact Hread|]. cbn [fm_name fm_churn fm_size].
  split; [reflexivity|]. split; [reflexivity|].
  pose proof (splitlines_length_le (c :: content)) as Hle.
  change (1 <= Z.max 1 (Z.of_nat (List.length (splitlines (c :: content))))
          <= Z.of_nat (List.length (c :: content))).
  assert (1 <= Z.of_nat (List.length (c :: content)))
    by (cbn [List.length]; lia).
  lia.
Qed.

Lemma metric_fields_of_analysed_file_witness :
  exists content : text,
    read_text demo_env "/tmp/city/src/a.py" = Some content /\
    1 <= 1 <= Z.of_nat (List.length content).
Proof.
  destruct (metric_fields_of_analysed_file demo_env (demo_file "a.py")
              {| fm_name := "a.py"; fm_size := 1;
                 fm_complexity := 7; fm_churn := 1 |} eq_refl)
    as (content & Hread & _ & _ & Hsize).
  exists content. split; [exact Hread | exact Hsize].
Defined.

(** ** More on the scheduler *)

Lemma kept_result_inv (env : Env) (f : SourceFile) (m : FileMetric) :
  In m (kept_result (analysis_task env) f) -> analyze_file env f = Some m.
Proof.
  unfold kept_result, analysis_task.
  destruct (analyze_file env f) as [r|]; simpl; [|tauto].
  now intros [->|[]].
Qed.

(** X9: the order of completion only permutes the results: two
    completion orders of the same tasks give the same multiset, and a
    run gives the results of the files taken in submission order, up to
    order. *)
Theorem completion_order_only_permutes_results :
  (forall (task : SourceFile -> outcome) (order1 order2 : list SourceFile),
      Permutation order1 order2 ->
      Permutation (collect_results task order1 [])
                  (collect_results task order2 [])) /\
  (forall (env : Env) (files : list SourceFile),
      Permutation (as_completed env files) files ->
      Permutation (run_scheduler env files)
                  (collect_results (analysis_task env) files [])).
Proof.
  assert (H : forall task order1 order2,
             Permutation order1 order2 ->
             Permutation (collect_results task order1 [])
                         (collect_results task order2 [])).
  { intros task order1 order2 Hperm.
    rewrite !collect_results_spec. simpl.
    now apply Permutation_flat_map. }
  split; [exact H|].
  intros env files Hperm. unfold run_scheduler. now apply H.
Qed.

Lemma completion_order_only_permutes_results_witness :
  Permutation (run_scheduler demo_env demo_files)
              (collect_results (analysis_task demo_env) demo_files []).
Proof.
  apply completion_order_only_permutes_results.
  apply Permutation_sym, Permutation_rev.
Defined.

(** X10: every result is the metric of one of the submitted files and
    bears its name; when every file is analyzable there are as many
    results as files. *)
Theorem results_stem_from_submitted_files :
  forall (env : Env) (files : list SourceFile),
    Permutation (as_completed env files) files ->
    (forall m, In m (run_scheduler env files) ->
       exists f, In f files /\ analyze_file env f = Some m /\
                 fm_name m = sf_name f) /\
    ((forall f, In f files -> analyze_file env f <> None) ->
     List.length (run_scheduler env files) = List.length files).
Proof.
  intros env files Hperm. unfold run_scheduler.
  rewrite collect_results_spec. cbn [app]. split.
  - intros m Hm. apply in_flat_map in Hm as (f & Hf & Hm).
    apply kept_result_inv in Hm. exists f.
    split; [exact (Permutation_in _ Hperm Hf)|]. split; [exact Hm|].
    destruct (analyze_file_inv _ _ _ Hm) as (c & content & fl & Hr & Hl).
    rewrite (analyze_file_success _ _ _ _ _ Hr Hl) in Hm.
    now injection Hm as <-.
  - intros Hall. rewrite <- (Permutation_length Hperm).
    assert (Hall' : forall f, In f (as_completed env files) ->
                      analyze_file env f <> None).
    { intros f Hf. apply Hall. exact (Permutation_in _ Hperm Hf). }
    clear Hperm Hall.
    induction (as_completed env files) as [|f rest IH]; [reflexivity|].
    cbn [flat_map]. rewrite length_app, IH.
    + unfold kept_result, analysis_task.
      destruct (analyze_file env f) eqn:E; [reflexivity|].
      exfalso. apply (Hall' f); [now left | exact E].
    + intros g Hg. apply Hall'. now right.
Qed.

Lemma results_stem_from_submitted_files_witness :
  exists f, In f demo_files /\ analyze_file demo_env f = Some demo_metric /\
            fm_name demo_metric = sf_name f.
Proof.
  destruct (results_stem_from_submitted_files demo_env demo_files
              (Permutation_sym (Permutation_rev demo_files))) as [Hstem _].
  apply Hstem. vm_compute. left. reflexivity.
Defined.

(** ** More on the encoder and the assembler *)

(** X11: the height of a tile is at least 1, is twice the complexity as
    soon as the complexity is positive, never decreases when the
    complexity grows, and the colour is always one of the five. *)
Theorem height_and_colour_ranges :
  forall c1 c2 : Z,
    1 <= height_of c1 /\
    (1 <= c1 -> height_of c1 = 2 * c1) /\
    (c1 <= 0 -> height_of c1 = 1) /\
    (c1 <= c2 -> height_of c1 <= height_of c2) /\
    In (color_of c1) color_buckets.
Proof.
  intros c1 c2. unfold height_of. repeat split; try lia.
  unfold color_of, color_buckets.
  repeat match goal with
         | |- context [?a <=? ?b] => destruct (a <=? b)
         end; simpl; tauto.
Qed.

Lemma height_and_colour_ranges_witness :
  height_of 7 = 14 /\ height_of 0 = 1 /\ height_of 3 <= height_of 7.
Proof.
  split; [|split].
  - rewrite (proj1 (proj2 (height_and_colour_ranges 7 7))); [reflexivity|lia].
  - apply (height_and_colour_ranges 0 0). lia.
  - apply (height_and_colour_ranges 3 7). lia.
Defined.

Lemma nth_error_paired_tiles (files_to_render : list FileMetric)
      (rects : list Rect) (i : nat) (m : FileMetric) (r : Rect) :
  nth_error files_to_render i = Some m -> nth_error rects i = Some r ->
  nth_error (paired_tiles files_to_render rects) i = Some (make_tile m r).
Proof.
  unfold paired_tiles. revert rects i.
  induction files_to_render as [|m0 rest IH]; intros [|r0 rects] [|i] Hm Hr;
    simpl in *; try discriminate.
  - now injection Hm as ->; injection Hr as ->.
  - now apply IH.
Qed.

(** X12: when the assembler succeeds, there is one tile per metric, and
    the tile of index [i] has the name and size of metric [i], the
    height and colour of its complexity, and the position and extents
    of rectangle [i]: metrics and rectangles are paired by index. *)
Theorem tiles_pair_metrics_with_rectangles :
  forall (files_to_render : list FileMetric) (rects : list Rect)
         (city_data : list Tile),
    assemble files_to_render rects = Ok city_data ->
    List.length city_data = List.length files_to_render /\
    forall i m,
      nth_error files_to_render i = Some m ->
      exists r t,
        nth_error rects i = Some r /\
        nth_error city_data i = Some t /\
        t_name t = fm_name m /\ t_size t = fm_size m /\
        t_h t = Z.max 1 (fm_complexity m * 2) /\
        t_color t = color_of (fm_complexity m) /\
        footprint t = r.
Proof.
  intros files_to_render rects city_data. rewrite assemble_spec.
  destruct (Nat.leb_spec (List.length files_to_render) (List.length rects))
    as [Hle|Hlt]; [|discriminate].
  intros H. injection H as <-. split; [now apply paired_tiles_length|].
  intros i m Hm.
  assert (Hi : (i < List.length rects)%nat).
  { apply Nat.lt_le_trans with (List.length files_to_render); [|exact Hle].
    apply nth_error_Some. congruence. }
  destruct (nth_error rects i) as [r|] eqn:Hr;
    [|apply nth_error_None in Hr; lia].
  exists r, (make_tile m r). split; [reflexivity|].
  split; [now apply nth_error_paired_tiles|].
  destruct r. repeat split.
Qed.

Lemma tiles_pair_metrics_with_rectangles_witness :
  List.length (paired_tiles [demo_metric; demo_metric] demo_rects) = 2%nat.
Proof.
  apply (tiles_pair_metrics_with_rectangles
           [demo_metric; demo_metric] demo_rects).
  reflexivity.
Defined.

(** ** More on the pipeline *)

Lemma run_scheduler_sizes (env : Env) (files : list SourceFile) :
  Forall (fun m => 1 <= fm_size m) (run_scheduler env files).
Proof.
  unfold run_scheduler. rewrite collect_results_spec. cbn [app].
  apply Forall_forall. intros m Hm.
  apply in_flat_map in Hm as (f & _ & Hm). apply kept_result_inv in Hm.
  destruct (analyze_file_inv _ _ _ Hm) as (c & content & fl & Hr & Hl).
  rewrite (analyze_file_success _ _ _ _ _ Hr Hl) in Hm.
  injection Hm as <-. cbn [fm_size]. lia.
Qed.

Lemma sumZ_lower_bound (l : list Z) :
  Forall (fun s => 1 <= s) l -> Z.of_nat (List.length l) <= sumZ l.
Proof.
  induction 1 as [|s l Hs _ IH]; [unfold sumZ; simpl; lia|].
  rewrite sumZ_cons. cbn [List.length]. lia.
Qed.

(** X13: every metric the scheduler returns has a size of at least 1, so
    the sizes of a run sum to at least the number of results: for a
    non-empty result the replacement of a zero sum by ones is never
    used, and the layout works on the sizes themselves. *)
Theorem zero_sum_fallback_is_never_used :
  forall (env : Env) (files : list SourceFile) (dynamic_area : Z),
    let sizes := map fm_size (run_scheduler env files) in
    Forall (fun s => 1 <= s) sizes /\
    Z.of_nat (List.length sizes) <= sumZ sizes /\
    (run_scheduler env files <> [] ->
     sumZ sizes <> 0 /\
     layout_step sizes dynamic_area =
       layout_engine (map inject_Z sizes) (inject_Z dynamic_area)).
Proof.
  intros env files dynamic_area sizes.
  assert (Hsizes : Forall (fun s => 1 <= s) sizes).
  { subst sizes. apply Forall_map. apply run_scheduler_sizes. }
  pose proof (sumZ_lower_bound _ Hsizes) as Hsum.
  split; [exact Hsizes|]. split; [exact Hsum|].
  intros Hne.
  assert (Hlen : (0 < List.length sizes)%nat).
  { subst sizes. rewrite length_map.
    destruct (run_scheduler env files); [contradiction | simpl; lia]. }
  split; [lia|].
  unfold layout_step. destruct (Z.eqb_spec (sumZ sizes) 0); [lia|reflexivity].
Qed.

Lemma zero_sum_fallback_is_never_used_witness :
  sumZ (map fm_size (run_scheduler demo_env demo_files)) <> 0.
Proof.
  apply (zero_sum_fallback_is_never_used demo_env demo_files 150).
  vm_compute. discriminate.
Defined.

(** X14: the side of the canvas is at least 150; it is 150 for up to 11
    files and the integer part of [45 * sqrt n] from 12 files on; it
    never decreases with the number of files. *)
Theorem canvas_side_bounds :
  forall n n' : Z,
    0 <= n ->
    150 <= dynamic_area_of n /\
    (n <= 11 -> dynamic_area_of n = 150) /\
    (12 <= n ->
     150 < dynamic_area_of n /\
     dynamic_area_of n * dynamic_area_of n <= 2025 * n
       < (dynamic_area_of n + 1) * (dynamic_area_of n + 1)) /\
    (n <= n' -> dynamic_area_of n <= dynamic_area_of n').
Proof.
  intros n n' Hn. unfold dynamic_area_of.
  split; [lia|]. split; [|split].
  - intros H11.
    assert (Z.sqrt (2025 * n) < 151).
    { apply Z.sqrt_lt_square; lia. }
    lia.
  - intros H12.
    assert (151 <= Z.sqrt (2025 * n)).
    { apply Z.sqrt_le_square; lia. }
    pose proof (Z.sqrt_spec (2025 * n) ltac:(lia)) as Hs.
    replace (Z.max 150 (Z.sqrt (2025 * n))) with (Z.sqrt (2025 * n)) by lia.
    split; [lia|]. unfold Z.succ in Hs. exact Hs.
  - intros Hle.
    pose proof (Z.sqrt_le_mono (2025 * n) (2025 * n') ltac:(lia)). lia.
Qed.

Lemma canvas_side_bounds_witness :
  dynamic_area_of 11 = 150 /\ 150 < dynamic_area_of 12 /\
  dynamic_area_of 12 <= dynamic_area_of 2000.
Proof.
  split; [|split].
  - apply (canvas_side_bounds 11 11); lia.
  - apply (canvas_side_bounds 12 12); lia.
  - apply (canvas_side_bounds 12 2000); lia.
Defined.

Lemma enumerated_at_most_max_files (relpath : string -> string -> string)
      (local_repo_path : string) (walk : list walk_entry) :
  (List.length
     (fst (get_source_files_from_local relpath local_repo_path MAX_FILES
             walk)) <= 2000)%nat.
Proof.
  unfold get_source_files_from_local.
  rewrite scan_walk_spec by (unfold MAX_FILES; simpl; lia).
  cbn [fst app].
  pose proof (firstn_le_length (Z.to_nat MAX_FILES)
                (all_source_files relpath local_repo_path walk)) as H.
  unfold MAX_FILES in *.
  change (Z.to_nat 2000) with 2000%nat in *. exact H.
Qed.

Lemma build_city_from_files_outcome (env : Env) (files : list SourceFile) :
  Permutation (as_completed env files) files ->
  match build_city_from_files env files with
  | Ok tiles => (1 <= List.length tiles <= List.length files)%nat
  | Raise e => e = input_error \/ e = aggregate_error
  end.
Proof.
  intros Hperm. unfold build_city_from_files.
  destruct files as [|f files']; [now left|].
  pose proof (collect_results_length (analysis_task env)
                (as_completed env (f :: files'))) as Hlen.
  rewrite (Permutation_length Hperm) in Hlen.
  fold (run_scheduler env (f :: files')) in Hlen.
  destruct (run_scheduler env (f :: files')) as [|m rest]; [now right|].
  destruct (render_city_succeeds (m :: rest)) as (tiles & -> & Hl & _).
  rewrite Hl. simpl in *. lia.
Qed.

Lemma clone_repository_outcome (env : Env) (repo_url : string)
      (info : string * string) (token : option string) :
  get_github_repo_info repo_url = Ok info ->
  clone_repository env repo_url token = Ok (mkdtemp env) \/
  clone_repository env repo_url token = Raise CalledProcessError.
Proof.
  intros Hinfo. unfold clone_repository.
  destruct (token_set token); simpl; [rewrite Hinfo; simpl|];
    destruct (git_clone env _ _); auto.
Qed.

(** On a host where nothing fails, the run ends as the pipeline does,
    and the data file is rewritten exactly when tiles are returned. *)
Lemma build_city_on_sound_host (env : Env) (repo_url : string)
      (city_data2 : data_file) :
  build_city_on_host env sound_host repo_url city_data2 =
    match build_city_from_github env repo_url with
    | Ok city_data => (Returns city_data, CityJson city_data)
    | Raise e => (Raises e, city_data2)
    end.
Proof.
  unfold build_city_on_host, build_city_from_github.
  destruct (get_github_repo_info repo_url) as [info|e]; [|reflexivity].
  cbn [bind clone_starts sound_host].
  destruct (clone_repository env repo_url (GITHUB_TOKEN env)) as [path|e].
  - cbn [bind].
    destruct (build_city_from_files env _); reflexivity.
  - destruct e; reflexivity.
Qed.

(** X15: how a run of [build_city_from_github] can end, [finally]
    clause and faults of the host included, for a worker pool that
    completes every submitted analysis once.  A run that returns has
    written its tiles, between 1 and 2000 of them, to the data file.
    [IndexError] is raised exactly when the normalised address has no
    slash, so the subscript of the assembler never fails in a run (the
    layout returning one rectangle per size).  An [Exception] raised
    carries one of the two messages of the pipeline.  After an
    exception of the pipeline the data file is as before; an [OSError]
    of the host can only come once the address has been parsed. *)
Theorem outcomes_of_a_run :
  forall (env : Env) (host : Host) (repo_url : string)
         (city_data2 : data_file),
    (forall files, Permutation (as_completed env files) files) ->
    let run := build_city_on_host env host repo_url city_data2 in
    let slash := PyStr.has_char "/" (strip_repo_url repo_url) in
    match fst run with
    | Returns city_data =>
        (1 <= List.length city_data <= 2000)%nat /\ slash = true /\
        snd run = CityJson city_data
    | Raises IndexError => slash = false /\ snd run = city_data2
    | Raises CalledProcessError => slash = true /\ snd run = city_data2
    | Raises (Exception msg) =>
        slash = true /\ snd run = city_data2 /\
        (Exception msg = input_error \/ Exception msg = aggregate_error)
    | RaisesOSError => slash = true
    end /\
    (slash = false -> run = (Raises IndexError, city_data2)).
Proof.
  intros env host repo_url city_data2 Hpool run slash. subst run slash.
  unfold build_city_on_host.
  destruct (PyStr.has_char "/" (strip_repo_url repo_url)) eqn:Hslash.
  - split; [|discriminate].
    destruct (repo_url_with_slash_parses _ Hslash) as (owner & repo & Hinfo).
    rewrite Hinfo.
    destruct (clone_starts host); [|reflexivity].
    destruct (clone_repository_outcome env repo_url _ (GITHUB_TOKEN env) Hinfo)
      as [Hclone|Hclone]; rewrite Hclone.
    + set (files := fst (get_source_files_from_local _ _ _ _)).
      pose proof (enumerated_at_most_max_files (relpath env) (mkdtemp env)
                    (os_walk env (mkdtemp env))) as Hmax.
      fold files in Hmax.
      pose proof (build_city_from_files_outcome env files (Hpool files))
        as Hout.
      destruct (build_city_from_files env files) as [tiles|e].
      * destruct (write host); try reflexivity.
        unfold after_rmtree. destruct (rmtree_raises host); [reflexivity|].
        cbn [fst snd]. repeat split; lia.
      * unfold after_rmtree. destruct (rmtree_raises host); [reflexivity|].
        cbn [fst snd]. destruct Hout as [-> | ->]; repeat split; auto.
    + unfold after_rmtree. destruct (rmtree_raises host); repeat split.
  - unfold get_github_repo_info.
    rewrite (split_no_separator _ _ Hslash). cbn [fst snd].
    repeat split.
Qed.

Lemma outcomes_of_a_run_witness :
  match fst (build_city_on_host demo_env sticky_host
               "https://github.com/o/r" NoFile) with
  | RaisesOSError => True
  | _ => False
  end /\
  build_city_on_host demo_env sticky_host "https://github.com/owner" NoFile
    = (Raises IndexError, NoFile).
Proof.
  pose proof (outcomes_of_a_run demo_env sticky_host
                "https://github.com/owner" NoFile
                (fun files => Permutation_sym (Permutation_rev files))) as H.
  cbv zeta in H. destruct H as [_ H].
  split; [vm_compute; exact I | apply H; reflexivity].
Defined.

(** ** The layout inside the pipeline *)

Local Open Scope Q_scope.

Lemma Qsum_inject_Z (l : list Z) :
  Qsum (map inject_Z l) == inject_Z (sumZ l).
Proof.
  induction l as [|a l IH]; [reflexivity|].
  cbn [map]. rewrite Qsum_cons, sumZ_cons, inject_Z_plus, IH. reflexivity.
Qed.

Lemma Forall2_map_left {A B C : Type} (P : B -> C -> Prop) (f : A -> B)
      (l : list A) (l' : list C) :
  Forall2 P (map f l) l' -> Forall2 (fun a c => P (f a) c) l l'.
Proof.
  revert l'. induction l as [|a l IH]; intros l' H; simpl in H.
  - inversion H. constructor.
  - inversion H as [|b c l0 l1 Hbc Hrest]; subst.
    constructor; [exact Hbc | now apply IH].
Qed.

Lemma footprints_of_paired_tiles (files_to_render : list FileMetric)
      (rects : list Rect) :
  List.length rects = List.length files_to_render ->
  map footprint (paired_tiles files_to_render rects) = rects.
Proof.
  unfold paired_tiles. revert rects.
  induction files_to_render as [|m rest IH]; intros [|r rects] H;
    simpl in *; try discriminate; [reflexivity|].
  rewrite IH by lia. now destruct r.
Qed.

(** The three properties of the engine on positive sizes, in the form
    the recursion on rows gives them. *)
Lemma layout_engine_props (sizes : list Q) (side : Q) :
  sizes <> [] -> Forall (fun s => 0 < s) sizes -> 0 < side ->
  Forall2 realises (layout_engine sizes side)
          (Squarify.normalize_sizes sizes side side) /\
  Forall (within 0 0 side side) (layout_engine sizes side) /\
  ForallOrdPairs (fun a b => ~ overlap a b) (layout_engine sizes side).
Proof.
  intros Hne Hpos Hside.
  assert (Harea : 0 < side * side) by (now apply Qmult_lt_0_compat).
  unfold layout_engine, Squarify.squarify.
  apply squarify_rows_props; try assumption.
  - lia.
  - now apply normalize_sizes_pos.
  - now apply normalize_sizes_sum.
Qed.

(** X16: in every run that succeeds, every tile has a positive width and
    a positive depth; the footprints of the tiles lie in the canvas, the
    square of side [dynamic_area]; no two of them overlap; their areas
    sum to the area of the canvas; and the footprint of each tile has
    the area of its file's size times the constant
    [side^2 / sum of the sizes].  The sizes of a run are at
    least 1 and the side at least 150, so the layout is always used
    where it is well defined.  (The layout package is the model of the
    treemap algorithm, in exact arithmetic.) *)
Theorem city_footprints_partition_the_canvas :
  forall (env : Env) (files : list SourceFile) (city_data : list Tile),
    build_city_from_files env files = Ok city_data ->
    let metrics := run_scheduler env files in
    let side := inject_Z (dynamic_area_of (Z.of_nat (List.length metrics))) in
    let total := inject_Z (sumZ (map fm_size metrics)) in
    Forall (fun t => 0 < t_w t /\ 0 < t_d t) city_data /\
    Forall (within 0 0 side side) (map footprint city_data) /\
    pairwise_disjoint (map footprint city_data) /\
    Qsum (map area (map footprint city_data)) == side * side /\
    Forall2 (fun t m =>
               area (footprint t)
               == inject_Z (fm_size m) * (side * side / total))
            city_data metrics.
Proof.
  intros env files city_data Hrun metrics side total.
  subst total side metrics.
  unfold build_city_from_files in Hrun.
  destruct files as [|f files']; [discriminate|].
  pose proof (run_scheduler_sizes env (f :: files')) as Hsizes.
  remember (run_scheduler env (f :: files')) as metrics eqn:Emetrics.
  clear Emetrics.
  assert (Hne : metrics <> []) by (destruct metrics; discriminate).
  assert (Hrender : render_city metrics = Ok city_data)
    by (destruct metrics; [discriminate | exact Hrun]).
  clear Hrun. rename Hrender into Hrun.
  unfold render_city in Hrun.
  set (side := inject_Z (dynamic_area_of (Z.of_nat (List.length metrics)))).
  set (total := inject_Z (sumZ (map fm_size metrics))).
  set (sizes := map fm_size metrics) in *.
  set (A := dynamic_area_of (Z.of_nat (List.length metrics))) in *.
  set (rects := layout_step sizes A) in *.
  assert (Hlen : List.length rects = List.length metrics).
  { subst rects sizes. now rewrite layout_step_length, length_map. }
  rewrite assemble_spec in Hrun.
  destruct (Nat.leb_spec (List.length metrics) (List.length rects));
    [|lia].
  injection Hrun as <-.
  rewrite (footprints_of_paired_tiles _ _ Hlen).
  assert (Hsizes_ne : sizes <> []).
  { subst sizes. destruct metrics; [contradiction | discriminate]. }
  assert (Hsizes_pos : Forall (fun s => (0 < s)%Z) sizes).
  { subst sizes. apply Forall_map.
    eapply Forall_impl; [|exact Hsizes]. simpl. intros; lia. }
  assert (Hengine : rects = layout_engine (map inject_Z sizes) (inject_Z A)).
  { subst rects. now apply layout_step_on_positive_sizes. }
  assert (HA : 0 < inject_Z A).
  { change (inject_Z 0 < inject_Z A). rewrite <- Zlt_Qlt.
    subst A. unfold dynamic_area_of. lia. }
  assert (Hq_ne : map inject_Z sizes <> []).
  { destruct sizes; [contradiction | discriminate]. }
  assert (Hq_pos : Forall (fun s => 0 < s) (map inject_Z sizes)).
  { apply Forall_map. eapply Forall_impl; [|exact Hsizes_pos].
    simpl. intros s Hs. change (inject_Z 0 < inject_Z s).
    now rewrite <- Zlt_Qlt. }
  destruct (layout_engine_props _ _ Hq_ne Hq_pos HA)
    as (Hreal & Hin & Hdisj).
  rewrite <- Hengine in *.
  split.
  { pose proof (realised_extents_positive _ _ Hreal) as Hext.
    rewrite <- (footprints_of_paired_tiles _ _ Hlen) in Hext.
    rewrite Forall_map in Hext. exact Hext. }
  split; [exact Hin|]. split; [now apply disjoint_pairs_at_positions|].
  split.
  - rewrite (realised_areas_sum _ _ Hreal).
    now apply normalize_sizes_sum.
  - unfold Squarify.normalize_sizes in Hreal.
    pose proof (Qsum_inject_Z sizes) as Htotal.
    set (T := Qsum (map inject_Z sizes)) in *.
    apply Forall2_map_right, Forall2_map_right in Hreal.
    subst sizes. apply Forall2_map_right in Hreal.
    rewrite <- (footprints_of_paired_tiles _ _ Hlen) in Hreal.
    apply Forall2_map_left in Hreal.
    eapply Forall2_impl; [|exact Hreal].
    intros t m0 [Harea _]. cbv beta in Harea. rewrite Harea, Htotal.
    unfold total, side, Qdiv. ring.
Qed.

Lemma city_footprints_partition_the_canvas_witness :
  exists city_data,
    build_city_from_files demo_env demo_files = Ok city_data /\
    Forall (fun t => 0 < t_w t /\ 0 < t_d t) city_data /\
    pairwise_disjoint (map footprint city_data) /\
    Qsum (map area (map footprint city_data)) == 150 * 150.
Proof.
  destruct (build_city_from_files demo_env demo_files) as [tiles|e] eqn:E.
  - exists tiles. split; [reflexivity|].
    destruct (city_footprints_partition_the_canvas demo_env demo_files
                tiles E) as (Hext & _ & Hdisj & Hsum & _).
    split; [exact Hext|]. split; [exact Hdisj | exact Hsum].
  - vm_compute in E. discriminate.
Defined.

Local Close Scope Q_scope.

(** ** The clone and the command line *)

(** X17: which address [git] is given.  With a non-empty token the
    address is rebuilt from the parsed owner and repository, whatever
    the form of the address given, and an address that does not parse
    fails with [IndexError] before any clone; without a token ([None] or
    the empty string) the address is passed on unchanged, parsable or
    not.  A failing clone raises [CalledProcessError]; a successful one
    returns the temporary directory. *)
Theorem clone_address_depends_on_token :
  forall (env : Env) (repo_url tok : string),
    tok <> EmptyString ->
    (forall owner repo,
        get_github_repo_info repo_url = Ok (owner, repo) ->
        clone_repository env repo_url (Some tok) =
          if git_clone env
               ("https://" ++ tok ++ "@github.com/" ++ owner ++ "/"
                  ++ repo ++ ".git")%string (mkdtemp env)
          then Ok (mkdtemp env) else Raise CalledProcessError) /\
    (PyStr.has_char "/" (strip_repo_url repo_url) = false ->
     clone_repository env repo_url (Some tok) = Raise IndexError) /\
    clone_repository env repo_url None =
      (if git_clone env repo_url (mkdtemp env)
       then Ok (mkdtemp env) else Raise CalledProcessError) /\
    clone_repository env repo_url (Some EmptyString) =
      clone_repository env repo_url None.
Proof.
  intros env repo_url tok Htok.
  destruct tok as [|a tok]; [contradiction|].
  unfold clone_repository. cbn [token_set].
  split; [|split; [|split]]; try reflexivity.
  - intros owner repo Hinfo. rewrite Hinfo. reflexivity.
  - intros Hslash. unfold get_github_repo_info.
    rewrite (split_no_separator _ _ Hslash). reflexivity.
Qed.

Lemma clone_address_depends_on_token_witness :
  clone_repository demo_env "git@github.com:o/r.git" (Some "t0k") =
    Ok "/tmp/city" /\
  clone_repository demo_env "o" (Some "t0k") = Raise IndexError.
Proof.
  destruct (clone_address_depends_on_token demo_env "git@github.com:o/r.git"
              "t0k" ltac:(discriminate)) as (Hparsed & _).
  destruct (clone_address_depends_on_token demo_env "o"
              "t0k" ltac:(discriminate)) as (_ & Hfail & _).
  split.
  - rewrite (Hparsed "o" "r" eq_refl). reflexivity.
  - apply Hfail. reflexivity.
Defined.

Lemma build_city_from_files_nonempty (env : Env) (files : list SourceFile)
      (city_data : list Tile) :
  build_city_from_files env files = Ok city_data -> city_data <> [].
Proof.
  unfold build_city_from_files.
  destruct files as [|f files']; [discriminate|].
  destruct (run_scheduler env (f :: files')) as [|m rest]; [discriminate|].
  destruct (render_city_succeeds (m :: rest)) as (tiles & -> & Hl & _).
  intros H. injection H as <-. intros ->. discriminate.
Qed.

Lemma build_city_from_github_nonempty (env : Env) (repo_url : string)
      (city_data : list Tile) :
  build_city_from_github env repo_url = Ok city_data -> city_data <> [].
Proof.
  unfold build_city_from_github.
  destruct (get_github_repo_info repo_url); [|discriminate]. cbn [bind].
  destruct (clone_repository env repo_url (GITHUB_TOKEN env));
    [|discriminate].
  cbn [bind]. apply build_city_from_files_nonempty.
Qed.

Lemma main_ends (env : Env) (host : Host) (script repo_input : string)
      (rest : list string) (city_data2 : data_file) :
  let env' :=
    match rest with
    | token :: _ => set_github_token token env
    | [] => env
    end in
  let run := build_city_on_host env' host repo_input city_data2 in
  main env host (script :: repo_input :: rest) city_data2 =
    match fst run with
    | Returns _ =>
        {| exit_status := 0; city_data_file := snd run;
           fatal := None; os_error := false |}
    | Raises e =>
        {| exit_status := 1; city_data_file := snd run;
           fatal := Some e; os_error := false |}
    | RaisesOSError =>
        {| exit_status := 1; city_data_file := snd run;
           fatal := None; os_error := true |}
    end.
Proof. destruct rest; reflexivity. Qed.




(** X19: an address without a slash on the command line, on any host.
    The script exits with status 1, the line printed is the text of the
    [IndexError], "list index out of range", and the data file of an
    earlier run is left in place. *)
Theorem script_on_address_without_slash :
  forall (env : Env) (host : Host) (script repo_input : string)
         (rest : list string) (city_data2 : data_file),
    PyStr.has_char "/" (strip_repo_url repo_input) = false ->
    let p := main env host (script :: repo_input :: rest) city_data2 in
    exit_status p = 1 /\
    fatal p = Some IndexError /\
    fatal_line p = Some "[FATAL ERROR] list index out of range" /\
    city_data_file p = city_data2.
Proof.
  intros env host script repo_input rest city_data2 Hslash p. subst p.
  pose proof (main_ends env host script repo_input rest city_data2) as Hmain.
  cbv zeta in Hmain. rewrite Hmain. clear Hmain.
  set (env' := match rest with
               | token :: _ => set_github_token token env
               | [] => env
               end).
  assert (Hrun : build_city_on_host env' host repo_input city_data2
                 = (Raises IndexError, city_data2)).
  { unfold build_city_on_host, get_github_repo_info.
    now rewrite (split_no_separator _ _ Hslash). }
  rewrite Hrun. repeat split.
Qed.

Lemma script_on_address_without_slash_witness :
  fatal_line (main demo_env sticky_host
                   ["scanner2.py"; "https://github.com/owner"] NoFile) =
    Some "[FATAL ERROR] list index out of range".
Proof.
  apply (script_on_address_without_slash demo_env sticky_host "scanner2.py"
           "https://github.com/owner" [] NoFile).
  reflexivity.
Defined.

(** ** The web application *)

Lemma string_app_cancel_r (a b c : string) :
  (a ++ c)%string = (b ++ c)%string -> a = b.
Proof.
  intros H.
  assert (Hlen : String.length a = String.length b).
  { apply (f_equal String.length) in H.
    rewrite !string_length_app in H. lia. }
  revert b H Hlen. induction a as [|x a IH]; intros [|y b] H Hlen;
    simpl in *; try discriminate; [reflexivity|].
  injection H as -> H. f_equal. apply IH; [exact H | lia].
Qed.

Lemma snapshot_file_injective (id1 id2 : string) :
  snapshot_file id1 = snapshot_file id2 -> id1 = id2.
Proof. unfold snapshot_file. apply string_app_cancel_r. Qed.

Lemma run_analysis_keeps_snapshots (app : AppEnv)
      (repo_url label github_token : string) (st : AppState) :
  status (fst (run_analysis app repo_url label github_token st)) <> 200 ->
  st_snapshots (snd (run_analysis app repo_url label github_token st)) =
  st_snapshots st.
Proof.
  unfold run_analysis. destruct repo_url as [|a url]; [reflexivity|].
  destruct (subprocess_run app _ _) as [code out err after|after|];
    try reflexivity.
  destruct (code =? 0); [|reflexivity].
  destruct after; try reflexivity.
  cbn. intros H. now contradiction H.
Qed.

(** X20: what [POST /api/analyze] does before it runs anything.  An
    abort of [get_json] is answered with its status; a body that is not
    an object, or a [repo_url], [label] or [github_token] that is a true
    value but not a string, ends in the framework's 500, even when the
    address is missing; a missing or blank address, the other two
    fields being strings or false, is refused with 400 "Repository URL
    is required".  In all these cases the files are untouched, and in
    every case where the status is not 200 the snapshot directory is
    left as it was. *)
Theorem analysis_writes_a_snapshot_only_on_success :
  forall (app : AppEnv) (posted_body : posted) (st : AppState),
    let r := fst (analyze app posted_body st) in
    let st' := snd (analyze app posted_body st) in
    (status r <> 200 -> st_snapshots st' = st_snapshots st) /\
    (forall code, posted_body = Rejected code ->
       r = {| status := code; payload := FrameworkPage |} /\ st' = st) /\
    (posted_body = NotAnObject \/
     (exists u l t, posted_body = Object u l t /\
                    (u = JOther \/ l = JOther \/ t = JOther)) ->
     r = {| status := 500; payload := FrameworkPage |} /\ st' = st) /\
    (forall u l t raw,
       posted_body = Object u l t -> l <> JOther -> t <> JOther ->
       field_or_empty u = Some raw -> strip app raw = EmptyString ->
       r = {| status := 400;
              payload := ErrorBody (Some "Repository URL is required") |} /\
       st' = st).
Proof.
  intros app posted_body st. cbv zeta. split; [|split; [|split]].
  - unfold analyze. destruct posted_body as [code| |u l t]; try reflexivity.
    destruct (field_or_empty u), (field_or_empty l),
      (token_or_environ app t); try reflexivity.
    apply run_analysis_keeps_snapshots.
  - intros code ->. split; reflexivity.
  - intros [-> | (u & l & t & -> & Hbad)]; [split; reflexivity|].
    unfold analyze.
    destruct Hbad as [-> | [-> | ->]].
    + split; reflexivity.
    + destruct (field_or_empty u); split; reflexivity.
    + destruct (field_or_empty u), (field_or_empty l); split; reflexivity.
  - intros u l t raw -> Hl Ht Hu Hblank. unfold analyze. rewrite Hu.
    destruct l as [|sl|]; [| |contradiction];
      destruct t as [|[|a st0]|]; try contradiction;
      cbn [field_or_empty token_or_environ];
      unfold run_analysis; rewrite Hblank; split; reflexivity.
Qed.

Lemma analysis_writes_a_snapshot_only_on_success_witness :
  fst (analyze (app_over demo_env sound_host (fun s => s) "log"
                         EmptyString "20261103-120000")
               (Object JFalsy JOther JFalsy) empty_state) =
    {| status := 500; payload := FrameworkPage |} /\
  fst (analyze (app_over demo_env sound_host (fun s => s) "log"
                         EmptyString "20261103-120000")
               (Object JFalsy (JText "demo") JFalsy) empty_state) =
    {| status := 400;
       payload := ErrorBody (Some "Repository URL is required") |}.
Proof.
  pose proof (analysis_writes_a_snapshot_only_on_success
                (app_over demo_env sound_host (fun s => s) "log"
                          EmptyString "20261103-120000")
                (Object JFalsy JOther JFalsy) empty_state) as Hbad.
  pose proof (analysis_writes_a_snapshot_only_on_success
                (app_over demo_env sound_host (fun s => s) "log"
                          EmptyString "20261103-120000")
                (Object JFalsy (JText "demo") JFalsy) empty_state) as Hblank.
  cbv zeta in Hbad, Hblank.
  destruct Hbad as (_ & _ & Hbad & _). destruct Hblank as (_ & _ & _ & Hblank).
  split.
  - apply Hbad. right. exists JFalsy, JOther, JFalsy. split; auto.
  - apply (Hblank JFalsy (JText "demo") JFalsy EmptyString);
      try reflexivity; discriminate.
Defined.

(** X21: a successful analysis can be read back.  After a 200 answer
    carrying [data] and the snapshot [meta], the snapshot is served
    under its id with the same data; the id is the timestamp, the file
    count is the number of tiles, the label is not empty (it falls back
    on the address); [/api/data] serves the same data; and snapshots
    stored under other ids are not affected. *)
Theorem successful_analysis_is_stored :
  forall (app : AppEnv) (posted_body : posted) (st st' : AppState)
         (data : list Tile) (meta : SnapshotMeta) (message : string),
    analyze app posted_body st =
      ({| status := 200; payload := AnalysisBody data meta message |}, st') ->
    get_snapshot (sm_id meta) st' =
      {| status := 200;
         payload := SnapshotBody {| snap_meta := meta; snap_data := data |} |} /\
    get_current_data st' = {| status := 200; payload := CityBody data |} /\
    sm_id meta = utcnow_stamp app /\ sm_created_at meta = sm_id meta /\
    sm_file_count meta = Z.of_nat (List.length data) /\
    sm_label meta <> EmptyString /\
    (forall other, other <> sm_id meta ->
                   get_snapshot other st' = get_snapshot other st).
Proof.
  intros app posted_body st st' data meta message. unfold analyze.
  destruct posted_body as [code| |u l t]; try discriminate.
  destruct (field_or_empty u) as [raw_u|]; [|discriminate].
  destruct (field_or_empty l) as [raw_l|]; [|discriminate].
  destruct (token_or_environ app t) as [raw_t|]; [|discriminate].
  unfold run_analysis.
  destruct (strip app raw_u) as [|a url] eqn:Hurl; [discriminate|].
  destruct (subprocess_run app _ _) as [code out err after|after|];
    try discriminate.
  destruct (code =? 0); [|discriminate].
  destruct after as [| |city_data]; try discriminate.
  intros H. injection H as <- <- <- <-.
  cbn [sm_id sm_created_at sm_file_count sm_label].
  unfold get_snapshot, get_current_data, write_snapshot.
  cbn [st_snapshots st_city_data].
  rewrite String.eqb_refl.
  repeat split.
  - destruct (strip app raw_l); discriminate.
  - intros other Hother.
    destruct (String.eqb_spec (snapshot_file other)
                (snapshot_file (utcnow_stamp app))) as [E|E];
      [|reflexivity].
    apply snapshot_file_injective in E. contradiction.
Qed.

Lemma successful_analysis_is_stored_witness :
  exists data meta message st',
    analyze (app_over demo_env sound_host (fun s => s) "log" EmptyString
                      "20261103-120000")
            (Object (JText "https://github.com/o/r") JFalsy JFalsy)
            empty_state =
      ({| status := 200; payload := AnalysisBody data meta message |}, st') /\
    get_current_data st' = {| status := 200; payload := CityBody data |} /\
    sm_file_count meta = 2 /\
    sm_label meta = "https://github.com/o/r".
Proof.
  destruct (analyze (app_over demo_env sound_host (fun s => s) "log"
                              EmptyString "20261103-120000")
                    (Object (JText "https://github.com/o/r") JFalsy JFalsy)
                    empty_state) as [[code [e|data meta message|d|s|]] st']
    eqn:E; try (vm_compute in E; discriminate).
  assert (Hcode : code = 200) by (vm_compute in E; congruence).
  subst code.
  destruct (successful_analysis_is_stored _ _ _ _ _ _ _ E)
    as (_ & Hdata & _ & _ & Hcount & _).
  exists data, meta, message, st'. split; [reflexivity|].
  split; [exact Hdata|].
  split; vm_compute in E; injection E as <- <- <- <-; reflexivity.
Defined.



